(** * Project-awareness session pipeline: consolidation, restoration, suggestions

    A shallow embedding of three scripts of the repository:

    - the quick smart-session generator ([generateQuickSmartSession],
      [generateSmartContent]),
    - the smart-start restorer ([startSmartSession], [loadSmartSession],
      [listAvailableSessions], [createSessionScript]),
    - the post-tool hook ([postToolAnalysis], the JavaScript program the
      shell wrapper hands to [node -e]).

    Conventions of the embedding.

    - A JavaScript string is a Rocq [string], one character per UTF-16 code
      unit for Latin-1 text, which is where [length], [toLowerCase] and
      [trim] are used.  Text outside Latin-1 only occurs in the constant
      templates and in data that is copied or compared with ASCII patterns;
      it stands as its UTF-8 bytes.
    - The files under [~/.claude] form the [world]; every function that
      touches them threads the world through the monad [M], whose results
      are [Return v] or [Throw e] (a JavaScript exception).
    - [new Date().toISOString()] reads the next value of the world's clock.
    - The [projects] map is keyed by the names of the directories of
      [~/.claude/projects]; a project name that is such a key is one segment
      of the path [path.join] builds.
    - The statistics object is the finite map of its own entries.
      [stats[name]] also finds the names every object inherits from
      [Object.prototype], where this map has nothing: the theorems on the
      entry of the current project that depend on the difference exclude
      those names.
    - [console.log] output feeds no decision and is not part of the world.
    - [postToolAnalysis] starts from the JavaScript value [toolResult] (the
      value of the template literal of its line 259). *)

From Stdlib Require Import Floats.PrimFloat Numbers.Cyclic.Int63.Uint63.
From Stdlib Require Import QArith Strings.Ascii.
From stdpp Require Import gmap strings list pretty.

Local Open Scope nat_scope.

(** ** JavaScript built-ins used by the scripts *)

Module Js.

Definition LF : ascii := "010"%char.
Definition DQUOTE : ascii := "034"%char.
Definition BACKSLASH : ascii := "092"%char.

Definition char (c : ascii) : string := String c "".

(** [s.startsWith(pat)] *)
Definition startsWith (s pat : string) : bool := String.prefix pat s.

(** [s.includes(pat)]: [pat] starts at some position of [s]. *)
Fixpoint includes (s pat : string) : bool :=
  startsWith s pat ||
  match s with
  | EmptyString => false
  | String _ s' => includes s' pat
  end.

(** [s.endsWith(suf)]: some suffix of [s] is [suf]. *)
Fixpoint endsWith (s suf : string) : bool :=
  bool_decide (s = suf) ||
  match s with
  | EmptyString => false
  | String _ s' => endsWith s' suf
  end.

(** [toLowerCase] on a Latin-1 code unit: A-Z, and the accented capitals
    U+00C0..U+00DE except the multiplication sign U+00D7. *)
Definition lower_char (c : ascii) : ascii :=
  let n := N_of_ascii c in
  if ((65 <=? n) && (n <=? 90))%N
     || ((192 <=? n) && (n <=? 222) && negb (n =? 215))%N
  then ascii_of_N (n + 32)
  else c.

Fixpoint toLowerCase (s : string) : string :=
  match s with
  | EmptyString => EmptyString
  | String c s' => String (lower_char c) (toLowerCase s')
  end.

(** White space and line terminators of [trim], Latin-1 range. *)
Definition is_white_space (c : ascii) : bool :=
  let n := N_of_ascii c in
  ((9 <=? n) && (n <=? 13) || (n =? 32) || (n =? 160))%N.

Fixpoint trimStart (s : string) : string :=
  match s with
  | EmptyString => EmptyString
  | String c s' => if is_white_space c then trimStart s' else s
  end.

Fixpoint trimEnd (s : string) : string :=
  match s with
  | EmptyString => EmptyString
  | String c s' =>
      let r := trimEnd s' in
      if is_white_space c && bool_decide (r = EmptyString)
      then EmptyString
      else String c r
  end.

Definition trim (s : string) : string := trimEnd (trimStart s).

(** [s.split(sep)] for a one-character separator. *)
Fixpoint split (sep : ascii) (s : string) : list string :=
  match s with
  | EmptyString => [EmptyString]
  | String c s' =>
      if bool_decide (c = sep) then EmptyString :: split sep s'
      else match split sep s' with
           | l :: ls => String c l :: ls
           | [] => [char c]
           end
  end.

(** [parts.join(sep)] *)
Fixpoint join (sep : string) (parts : list string) : string :=
  match parts with
  | [] => EmptyString
  | [p] => p
  | p :: ps => p +:+ sep +:+ join sep ps
  end.

(** Conversion of an array length to a string, as a template literal and
    [JSON.stringify] do it: the decimal digits. *)
Definition Number_toString (n : nat) : string := pretty n.

(** *** [JSON.stringify] on the records the scripts serialise *)

Inductive json_value :=
| JString (s : string)
| JNumber (n : nat).

Definition json_object := list (string * json_value).

Definition hex_digit (n : N) : ascii :=
  if (n <? 10)%N then ascii_of_N (48 + n) else ascii_of_N (87 + n).

(** QuoteJSONString, one code unit at a time. *)
Definition escape_char (c : ascii) : string :=
  let n := N_of_ascii c in
  if (n =? 8)%N then "\b"
  else if (n =? 9)%N then "\t"
  else if (n =? 10)%N then "\n"
  else if (n =? 12)%N then "\f"
  else if (n =? 13)%N then "\r"
  else if (n =? 34)%N then String BACKSLASH (char DQUOTE)
  else if (n =? 92)%N then String BACKSLASH (char BACKSLASH)
  else if (n <? 32)%N
       then "\u00" +:+ String (hex_digit (n / 16)) (char (hex_digit (n mod 16)))
  else char c.

Fixpoint escape (s : string) : string :=
  match s with
  | EmptyString => EmptyString
  | String c s' => escape_char c +:+ escape s'
  end.

Definition quote (s : string) : string :=
  String DQUOTE (escape s +:+ char DQUOTE).

Definition stringify_value (v : json_value) : string :=
  match v with
  | JString s => quote s
  | JNumber n => Number_toString n
  end.

Definition stringify_member (kv : string * json_value) : string :=
  quote kv.1 +:+ ":" +:+ stringify_value kv.2.

(** [JSON.stringify(obj)] without indentation. *)
Definition JSON_stringify (obj : json_object) : string :=
  "{" +:+ join "," (stringify_member <$> obj) +:+ "}".

(** Property lookup on a serialised record. *)
Definition get (obj : json_object) (key : string) : option json_value :=
  (λ r, r.2.2) <$> list_find (λ kv, kv.1 = key) obj.

(** *** [Set] and spread *)

(** [new Set(items)]: the distinct elements in first-insertion order. *)
Definition Set_add `{EqDecision A} (acc : list A) (x : A) : list A :=
  if decide (x ∈ acc) then acc else acc ++ [x].

Definition new_Set `{EqDecision A} (items : list A) : list A :=
  foldl Set_add [] items.

End Js.


(** ** Records kept by the post-tool hook *)

(** A value held in a JSON array of the statistics file, or handed to a
    [Set]: an environment variable that is not set reads as [undefined],
    which [JSON.stringify] writes as [null]. *)
Inductive jsval :=
| JsString (s : string)
| JsNull
| JsUndefined.

#[global] Instance jsval_eq_dec : EqDecision jsval.
Proof. solve_decision. Defined.

(** [process.env.NAME] as a JavaScript value. *)
Definition env_value (v : option string) : jsval :=
  match v with
  | Some s => JsString s
  | None => JsUndefined
  end.

Module activityLog.
Record t := {
  timestamp : string;
  session_id : jsval;
  tool : jsval;
  agent : jsval;
  project : string;
  working_directory : string;
  result_size : nat
}.
End activityLog.

Module projectMatch.
Record t := {
  project : string;
  matches : nat;
  confidence : float
}.
End projectMatch.

Module suggestionData.
Record t := {
  timestamp : string;
  current_project : string;
  suggested_project : string;
  confidence : float;
  trigger : string;
  tool : jsval
}.
End suggestionData.

(** One project's entry of [project-stats.json].  [directories] and
    [agents_used] are [None] when the property is missing from the entry. *)
Module projectStats.
Record t := {
  tool_uses : nat;
  last_used : option string;
  directories : option (list string);
  agents_used : option (list jsval)
}.
End projectStats.

(** ** The files under [~/.claude] and the effects on them *)

Module Sys.

Inductive error :=
| ENOENT (path : string)
| TypeError (msg : string)
| SyntaxError (msg : string)
| Error (msg : string).

Inductive result (A : Type) :=
| Return (v : A)
| Throw (e : error).
Arguments Return {A} v.
Arguments Throw {A} e.

(** [~/.claude/logs]: the lines appended to the two JSON-lines files. *)
Record logs_dir := {
  project_activity : list activityLog.t;
  project_suggestions : list suggestionData.t
}.

(** [~/.claude/project-stats.json]: a document that [JSON.parse] rejects, or
    the statistics object it parses to. *)
Inductive stats_document :=
| Unparsable
| Document (stats : gmap string projectStats.t).

Record world := {
  (** [~/.claude/projects/<project>/<file>], by project then file name *)
  projects : gmap string (gmap string string);
  (** [~/.claude/current-project], when the file exists *)
  current_project : option string;
  (** [~/.claude/logs], when the directory exists *)
  logs : option logs_dir;
  (** [~/.claude/project-stats.json], when the file exists *)
  project_stats : option stats_document;
  (** the readings [new Date().toISOString()] will give, and how many were
      taken *)
  clock : nat → string;
  ticks : nat
}.

Definition set_projects (p : gmap string (gmap string string)) (w : world) : world :=
  {| projects := p; current_project := current_project w; logs := logs w;
     project_stats := project_stats w; clock := clock w; ticks := ticks w |}.

Definition set_logs (l : option logs_dir) (w : world) : world :=
  {| projects := projects w; current_project := current_project w; logs := l;
     project_stats := project_stats w; clock := clock w; ticks := ticks w |}.

Definition set_project_stats (s : option stats_document) (w : world) : world :=
  {| projects := projects w; current_project := current_project w; logs := logs w;
     project_stats := s; clock := clock w; ticks := ticks w |}.

Definition set_ticks (n : nat) (w : world) : world :=
  {| projects := projects w; current_project := current_project w; logs := logs w;
     project_stats := project_stats w; clock := clock w; ticks := n |}.

(** State and exceptions. *)
Definition M (A : Type) : Type := world → world * result A.

Definition ret {A} (v : A) : M A := λ w, (w, Return v).

Definition throw {A} (e : error) : M A := λ w, (w, Throw e).

Definition bind {A B} (m : M A) (k : A → M B) : M B :=
  λ w, match m w with
       | (w', Return v) => k v w'
       | (w', Throw e) => (w', Throw e)
       end.

(** [try { body } catch (error) { handler }] *)
Definition try_catch {A} (body : M A) (handler : error → M A) : M A :=
  λ w, match body w with
       | (w', Return v) => (w', Return v)
       | (w', Throw e) => handler e w'
       end.

Definition gets {A} (f : world → A) : M A := λ w, (w, Return (f w)).

Definition modify (f : world → world) : M unit := λ w, (f w, Return tt).

(** [new Date().toISOString()] *)
Definition Date_toISOString : M string :=
  λ w, (set_ticks (S (ticks w)) w, Return (clock w (ticks w))).

End Sys.

Notation "'let*' x ':=' m 'in' k" := (Sys.bind m (λ x, k))
  (at level 10, x name, m at level 100, k at level 200).
Notation "m ';;' k" := (Sys.bind m (λ _, k))
  (at level 100, k at level 200, right associativity).

(** ** The quick smart-session generator *)

Module QuickSmartSessions.
Import Sys.

Definition nl : string := Js.char Js.LF.

(** [path.join(projectPath, `${projectName}-SMART-START.jsonl`)], as a file
    name inside the project's directory. *)
Definition smartSessionName (projectName : string) : string :=
  projectName +:+ "-SMART-START.jsonl".

(** [fs.existsSync(projectPath)], the project name being looked up among
    the names of the project directories. *)
Definition existsSync_project (projectName : string) : M bool :=
  gets (λ w, bool_decide (is_Some (projects w !! projectName))).

(** [fs.readdirSync(projectPath)] *)
Definition readdirSync_project (projectName : string) : M (list string) :=
  let* dirs := gets projects in
  match dirs !! projectName with
  | Some dir => ret (elements (dom dir))
  | None => throw (ENOENT projectName)
  end.

(** [fs.writeFileSync(path.join(projectPath, name), data)] *)
Definition writeFileSync_project (projectName name data : string) : M unit :=
  let* dirs := gets projects in
  match dirs !! projectName with
  | Some dir => modify (set_projects (<[projectName := <[name := data]> dir]> dirs))
  | None => throw (ENOENT projectName)
  end.

(** The filter of line 20. *)
Definition is_session_file (file : string) : bool :=
  Js.endsWith file ".jsonl" && negb (Js.includes file "SMART-START").

Definition smartSession (projectName : string) (sessionFiles : list string)
    (generated_at : string) : Js.json_object :=
  [ ("type", Js.JString "smart_start_session");
    ("project", Js.JString projectName);
    ("generated_at", Js.JString generated_at);
    ("consolidated_sessions", Js.JNumber (length sessionFiles));
    ("version", Js.JString "1.0.0");
    ("generation_method", Js.JString "quick_consolidation") ].

Definition contextMessage (projectName : string) (sessionFiles : list string)
    (timestamp : string) : Js.json_object :=
  [ ("role", Js.JString "assistant");
    ("content", Js.JString (Js.join nl [
      "## 🧠 Smart Session Context for " +:+ projectName;
      "";
      "**Project Intelligence:** Synthesized from " +:+ Js.Number_toString (length sessionFiles) +:+ " previous sessions";
      "";
      "### 📊 Project Overview";
      "This is your consolidated smart session for **" +:+ projectName +:+ "**. Based on " +:+ Js.Number_toString (length sessionFiles) +:+ " previous work sessions, this project appears to be an active area of focus.";
      "";
      "### 🚀 Ready to Continue";
      "Your previous work on **" +:+ projectName +:+ "** is available for context. The system has consolidated your session history and is ready to assist with continued work on this project.";
      "";
      "### 💡 Session History Available";
      "- **Total Sessions**: " +:+ Js.Number_toString (length sessionFiles);
      "- **Latest Activity**: Recent work detected";
      "- **Context Preserved**: Previous decisions and patterns maintained";
      "";
      "**Ready to work on " +:+ projectName +:+ "!** 🎯"
    ]));
    ("timestamp", Js.JString timestamp) ].

Definition suggestions (projectName : string) (sessionFiles : list string)
    (timestamp : string) : Js.json_object :=
  [ ("role", Js.JString "system");
    ("content", Js.JString (Js.join nl [
      "## 🔧 Quick Start Suggestions for " +:+ projectName;
      "";
      "Based on this being an active project with " +:+ Js.Number_toString (length sessionFiles) +:+ " sessions:";
      "";
      "- Review recent file changes";
      "- Continue previous workflows  ";
      "- Access project-specific resources";
      "- Build on established patterns";
      "";
      "This smart session provides instant context restoration for efficient project continuation."
    ]));
    ("timestamp", Js.JString timestamp) ].

Definition generateSmartContent (projectName : string) (sessionFiles : list string)
    : M string :=
  let* generated_at := Date_toISOString in
  let* context_timestamp := Date_toISOString in
  let* suggestions_timestamp := Date_toISOString in
  ret (Js.join nl
         [ Js.JSON_stringify (smartSession projectName sessionFiles generated_at);
           Js.JSON_stringify (contextMessage projectName sessionFiles context_timestamp);
           Js.JSON_stringify (suggestions projectName sessionFiles suggestions_timestamp) ]).

Definition generateQuickSmartSession (projectName : string) : M unit :=
  let* found := existsSync_project projectName in
  if negb found then ret tt
  else
    let* entries := readdirSync_project projectName in
    let sessionFiles := filter (λ file, is_session_file file) entries in
    if bool_decide (length sessionFiles = 0) then ret tt
    else
      let* smartSessionContent := generateSmartContent projectName sessionFiles in
      writeFileSync_project projectName (smartSessionName projectName) smartSessionContent.

End QuickSmartSessions.

(** ** The smart-start restorer *)

Module SmartStart.
Import Sys.

Section Restorer.

(** [JSON.parse]: the values it yields, [None] when it throws. *)
Variable JSON : Type.
Variable JSON_parse : string → option JSON.

(** The record [loadSmartSession] returns: the parsed header, spread, with
    the [content] of the two optional message lines. *)
Record smart_session := {
  sessionData : JSON;
  contextMessage : option JSON;
  suggestions : option JSON
}.

(** The collaborators of [startSmartSession]: the simulated ChittyChat
    client, the [EnvironmentRestorer] of [lib/environment-restorer], and the
    steps that print the context and write the status file and the shell
    script.  Each may change the world, return or throw. *)
Variable chittyChatProject : Type.
Variable environmentResult : Type.
Variable connectToChittyChat : string → M chittyChatProject.
(** [None]: the restorer resolved to [undefined] or [null]. *)
Variable restoreProjectEnvironment :
  string → smart_session → M (option environmentResult).
Variable displaySmartContext : smart_session → M unit.
Variable setupChittyChatIntegration : string → chittyChatProject → M unit.
Variable createSessionScript : string → environmentResult → M unit.

(** The file [<project>-SMART-START.jsonl] of a project, when it exists. *)
Definition smartSessionFile (w : world) (projectName : string) : option string :=
  dir ← projects w !! projectName;
  dir !! QuickSmartSessions.smartSessionName projectName.

(** [fs.existsSync(smartSessionPath)] *)
Definition existsSync_smartSession (projectName : string) : M bool :=
  gets (λ w, bool_decide (is_Some (smartSessionFile w projectName))).

(** [fs.readFileSync(smartSessionPath, 'utf8')] *)
Definition readFileSync_smartSession (projectName : string) : M string :=
  let* file := gets (λ w, smartSessionFile w projectName) in
  match file with
  | Some content => ret content
  | None => throw (ENOENT (QuickSmartSessions.smartSessionName projectName))
  end.

(** [JSON.parse(line)]; [JSON.parse(undefined)] throws as well. *)
Definition parse (line : option string) : M JSON :=
  match line ≫= JSON_parse with
  | Some v => ret v
  | None => throw (SyntaxError "Unexpected token in JSON")
  end.

(** [line ? JSON.parse(line) : null] *)
Definition parse_if_present (line : option string) : M (option JSON) :=
  match line with
  | Some l =>
      if bool_decide (l = "") then ret None
      else let* v := parse (Some l) in ret (Some v)
  | None => ret None
  end.

Definition loadSmartSession (projectName : string) : M (option smart_session) :=
  let* found := existsSync_smartSession projectName in
  if negb found then ret None
  else
    try_catch
      (let* content := readFileSync_smartSession projectName in
       let lines := Js.split Js.LF (Js.trim content) in
       let* sessionData := parse (lines !! 0) in
       let* contextMessage := parse_if_present (lines !! 1) in
       let* suggestions := parse_if_present (lines !! 2) in
       ret (Some {| sessionData := sessionData;
                    contextMessage := contextMessage;
                    suggestions := suggestions |}))
      (λ error, ret None).

(** The body of the [try] block of [startSmartSession]. *)
Definition startSmartSession_try (projectName : string) : M bool :=
  let* smartSession := loadSmartSession projectName in
  match smartSession with
  | None => ret false
  | Some smartSession =>
      let* chittyChatProject := connectToChittyChat projectName in
      let* environmentResult := restoreProjectEnvironment projectName smartSession in
      match environmentResult with
      | None => throw (TypeError "Cannot read properties of undefined (reading 'success')")
      | Some environmentResult =>
          displaySmartContext smartSession ;;
          setupChittyChatIntegration projectName chittyChatProject ;;
          createSessionScript projectName environmentResult ;;
          ret true
      end
  end.

Definition startSmartSession (projectName : string) : M bool :=
  try_catch (startSmartSession_try projectName) (λ error, ret false).

End Restorer.

End SmartStart.

(** ** The post-tool hook *)

Module PostToolHook.
Import Sys.

(** The [node] process: [process.cwd()] and [process.env]. *)
Record process := {
  cwd : string;
  env : gmap string string
}.

(** The table of line 263, in the order [Object.entries] lists it. *)
Definition projectKeywords : list (string * list string) :=
  [ ("Arias-v-Bianchi", ["arias"; "bianchi"; "legal"; "court"; "evidence"; "motion"]);
    ("ChittyOS-Core", ["chittyos"; "mcp"; "server"; "canon"]);
    ("ChittyFinance", ["finance"; "invoice"; "payment"; "accounting"; "money"]);
    ("ChiCo-Properties", ["property"; "rental"; "tenant"; "lease"; "chicago"]);
    ("IT-CAN-BE-LLC", ["wyoming"; "llc"; "corporate"; "entity"]) ].

(** An array length as a JavaScript number (a binary64 float). *)
Definition Number (n : nat) : float :=
  PrimFloat.of_uint63 (Uint63.of_Z (Z.of_nat n)).

(** [keywords.filter(keyword => lowerResult.includes(keyword)).length] *)
Definition matchCount (lowerResult : string) (keywords : list string) : nat :=
  length (filter (λ keyword, Js.includes lowerResult keyword) keywords).

(** [matchCount / keywords.length] *)
Definition confidence (matchCount : nat) (keywords : list string) : float :=
  PrimFloat.div (Number matchCount) (Number (length keywords)).

(** One turn of the loop of line 274. *)
Definition scoreProject (lowerResult : string) (projectMatches : list projectMatch.t)
    (entry : string * list string) : list projectMatch.t :=
  let matchCount := matchCount lowerResult entry.2 in
  if bool_decide (0 < matchCount)
  then projectMatches ++
       [ {| projectMatch.project := entry.1;
            projectMatch.matches := matchCount;
            projectMatch.confidence := confidence matchCount entry.2 |} ]
  else projectMatches.

Definition projectMatches (lowerResult : string) : list projectMatch.t :=
  foldl (scoreProject lowerResult) [] projectKeywords.

#[warning="-inexact-float"]
Definition threshold : float := 0.3%float.

(** [m.confidence > 0.3] *)
Definition is_strong (m : projectMatch.t) : bool :=
  PrimFloat.ltb threshold (projectMatch.confidence m).

Definition strongMatches (projectMatches : list projectMatch.t) : list projectMatch.t :=
  filter (λ m, is_strong m) projectMatches.

(** The current-project pointer, or ['none']. *)
Definition read_currentProject : M string :=
  let* file := gets current_project in
  ret (match file with
       | Some content => Js.trim content
       | None => "none"
       end).

(** [fs.appendFileSync(logFile, JSON.stringify(activityLog) + '\n')] *)
Definition appendFileSync_activity (entry : activityLog.t) : M unit :=
  let* dir := gets logs in
  match dir with
  | Some d =>
      modify (set_logs (Some {| project_activity := project_activity d ++ [entry];
                                project_suggestions := project_suggestions d |}))
  | None => throw (ENOENT "~/.claude/logs/project-activity.jsonl")
  end.

(** [fs.appendFileSync(suggestionsFile, JSON.stringify(suggestionData) + '\n')] *)
Definition appendFileSync_suggestions (entry : suggestionData.t) : M unit :=
  let* dir := gets logs in
  match dir with
  | Some d =>
      modify (set_logs (Some {| project_activity := project_activity d;
                                project_suggestions := project_suggestions d ++ [entry] |}))
  | None => throw (ENOENT "~/.claude/logs/project-suggestions.jsonl")
  end.

(** The scores of lines 261-283: [None] when the guard of line 261 keeps
    the block from running. *)
Definition resultMatches (toolResult : string) : option (list projectMatch.t) :=
  if bool_decide (100 < String.length toolResult)
  then Some (projectMatches (Js.toLowerCase toolResult))
  else None.

(** Lines 258-311. *)
Definition analyseResult (p : process) (toolResult currentProject : string) : M unit :=
  match resultMatches toolResult with
  | Some projectMatches =>
      match strongMatches projectMatches with
      | suggestion :: _ =>
          if bool_decide (projectMatch.project suggestion ≠ currentProject)
          then
            let* timestamp := Date_toISOString in
            appendFileSync_suggestions
              {| suggestionData.timestamp := timestamp;
                 suggestionData.current_project := currentProject;
                 suggestionData.suggested_project := projectMatch.project suggestion;
                 suggestionData.confidence := projectMatch.confidence suggestion;
                 suggestionData.trigger := "post_tool_result_analysis";
                 suggestionData.tool := env_value (env p !! "CLAUDE_TOOL_NAME") |}
          else ret tt
      | [] => ret tt
      end
  | None => ret tt
  end.

(** Lines 315-323: the statistics object, [{}] when the file is missing or
    does not parse. *)
Definition load_stats : M (gmap string projectStats.t) :=
  let* file := gets project_stats in
  ret (match file with
       | Some (Document stats) => stats
       | Some Unparsable => ∅
       | None => ∅
       end).

(** The entry of lines 326-331. *)
Definition new_entry : projectStats.t :=
  {| projectStats.tool_uses := 0;
     projectStats.last_used := None;
     projectStats.directories := Some [];
     projectStats.agents_used := Some [] |}.

(** [[...new Set([...Array.from(previous || []), item])]] *)
Definition union_in `{EqDecision A} (previous : option (list A)) (item : A) : list A :=
  Js.new_Set (default [] previous ++ [item]).

(** Lines 325-337 on the entry of the current project. *)
Definition update_entry (previous : option projectStats.t) (now currentDir : string)
    (agent : jsval) : projectStats.t :=
  let entry := default new_entry previous in
  {| projectStats.tool_uses := S (projectStats.tool_uses entry);
     projectStats.last_used := Some now;
     projectStats.directories :=
       Some (union_in (projectStats.directories entry) currentDir);
     projectStats.agents_used :=
       Some (union_in (projectStats.agents_used entry) agent) |}.

(** [Array.from(value)] *)
Definition Array_from {A} (value : option (list A)) : M (list A) :=
  match value with
  | Some items => ret items
  | None => throw (TypeError "undefined is not iterable")
  end.

(** Lines 340-343: every entry's two properties are copied into arrays. *)
Definition sets_to_arrays (stats : gmap string projectStats.t)
    : M (gmap string projectStats.t) :=
  foldr (λ kv rest,
           let* directories := Array_from (projectStats.directories kv.2) in
           let* agents_used := Array_from (projectStats.agents_used kv.2) in
           let* done := rest in
           ret (<[kv.1 :=
                   {| projectStats.tool_uses := projectStats.tool_uses kv.2;
                      projectStats.last_used := projectStats.last_used kv.2;
                      projectStats.directories := Some directories;
                      projectStats.agents_used := Some agents_used |}]> done))
        (ret stats) (map_to_list stats).

(** What [JSON.stringify] makes of an array element. *)
Definition stringified (v : jsval) : jsval :=
  match v with
  | JsUndefined => JsNull
  | _ => v
  end.

(** An entry as [JSON.stringify] writes it and [JSON.parse] reads it back. *)
Definition written_entry (e : projectStats.t) : projectStats.t :=
  {| projectStats.tool_uses := projectStats.tool_uses e;
     projectStats.last_used := projectStats.last_used e;
     projectStats.directories := projectStats.directories e;
     projectStats.agents_used :=
       (λ items : list jsval, stringified <$> items) <$> projectStats.agents_used e |}.

(** [fs.writeFileSync(statsFile, JSON.stringify(stats, null, 2))] *)
Definition writeFileSync_stats (stats : gmap string projectStats.t) : M unit :=
  modify (set_project_stats (Some (Document (written_entry <$> stats)))).

(** Lines 313-345, [stats[currentProject]] being the lookup of an own
    entry. *)
Definition updateStats (p : process) (currentProject : string) : M unit :=
  let* stats := load_stats in
  let* now := Date_toISOString in
  let entry := update_entry (stats !! currentProject) now (cwd p)
                 (env_value (env p !! "CLAUDE_AGENT_NAME")) in
  let* stats := sets_to_arrays (<[currentProject := entry]> stats) in
  writeFileSync_stats stats.

(** The [try] block of [postToolAnalysis]. *)
Definition postToolAnalysis_try (p : process) (toolResult : string) : M unit :=
  let currentDir := cwd p in
  let* currentProject := read_currentProject in
  let* timestamp := Date_toISOString in
  appendFileSync_activity
    {| activityLog.timestamp := timestamp;
       activityLog.session_id := env_value (env p !! "CLAUDE_SESSION_ID");
       activityLog.tool := env_value (env p !! "CLAUDE_TOOL_NAME");
       activityLog.agent := env_value (env p !! "CLAUDE_AGENT_NAME");
       activityLog.project := currentProject;
       activityLog.working_directory := currentDir;
       activityLog.result_size := String.length toolResult |} ;;
  analyseResult p toolResult currentProject ;;
  updateStats p currentProject.

Definition postToolAnalysis (p : process) (toolResult : string) : M unit :=
  try_catch (postToolAnalysis_try p toolResult) (λ error, ret tt).

End PostToolHook.

(** ** The list of smart sessions *)

Module SmartSessionList.
Import Sys.

Section Listing.

(** [JSON.parse], and the read of a property of what it yields: [None] when
    the read throws (the value is [null]). *)
Variable JSON : Type.
Variable JSON_parse : string → option JSON.
Variable value : Type.
Variable property : JSON → string → option value.

(** An element of [smartSessions]. *)
Record listed := {
  name : string;
  sessions : value;
  generated : value
}.

(** [smartSessions.sort((a, b) => b.sessions - a.sessions)] *)
Variable sort : list listed → list listed.

(** The [try] block of the loop: [None] when it throws. *)
Definition describe (project content : string) : option listed :=
  sessionData ← Js.split Js.LF content !! 0 ≫= JSON_parse;
  sessions ← property sessionData "consolidated_sessions";
  generated ← property sessionData "generated_at";
  Some {| name := project; sessions := sessions; generated := generated |}.

(** One turn of the loop over the project directories. *)
Definition visit (w : world) (smartSessions : list listed) (project : string)
    : list listed :=
  match SmartStart.smartSessionFile w project with
  | Some content =>
      match describe project content with
      | Some entry => smartSessions ++ [entry]
      | None => smartSessions
      end
  | None => smartSessions
  end.

Definition listAvailableSessions : M (list listed) :=
  let* projects := gets (λ w, elements (dom (projects w))) in
  let* smartSessions := gets (λ w, foldl (visit w) [] projects) in
  ret (sort smartSessions).

End Listing.

End SmartSessionList.

(** ** The session restoration script *)

Module SessionScript.

(** What [createSessionScript] reads of the restorer's result. *)
Record environmentResult := {
  workingDirectory : jsval;
  environmentVariables : option (gmap string string)
}.

(** A value inside a template literal. *)
Definition ToString (v : jsval) : string :=
  match v with
  | JsString s => s
  | JsNull => "null"
  | JsUndefined => "undefined"
  end.

(** [environmentResult.environmentVariables?.PROJECT_TYPE || 'general'] *)
Definition PROJECT_TYPE (environmentResult : environmentResult) : string :=
  match environmentVariables environmentResult ≫= (.!! "PROJECT_TYPE") with
  | Some type => if bool_decide (type = "") then "general" else type
  | None => "general"
  end.

Definition q : string := Js.char Js.DQUOTE.

Definition scriptContent (projectName : string) (environmentResult : environmentResult)
    (generated : string) : string :=
  Js.join (Js.char Js.LF) [
      "#!/bin/bash";
      "# ChittyChat Smart Session Restoration Script for " +:+ projectName;
      "# Generated: " +:+ generated;
      "";
      "echo " +:+ q +:+ "🔄 Restoring " +:+ projectName +:+ " session..." +:+ q;
      "";
      "# Change to working directory";
      "cd " +:+ q +:+ ToString (workingDirectory environmentResult) +:+ q;
      "";
      "# Set environment variables";
      "export CHITTYCHAT_ACTIVE_PROJECT=" +:+ q +:+ projectName +:+ q;
      "export PROJECT_TYPE=" +:+ q +:+ PROJECT_TYPE environmentResult +:+ q;
      "";
      "# Source project aliases";
      "source /tmp/chitty-project-aliases 2>/dev/null";
      "";
      "# Display status";
      "echo " +:+ q +:+ "✅ " +:+ projectName +:+ " session restored" +:+ q;
      "echo " +:+ q +:+ "📂 Directory: $(pwd)" +:+ q;
      "echo " +:+ q +:+ "🔧 ChittyChat: Active" +:+ q;
      "echo " +:+ q +:+ q;
      "echo " +:+ q +:+ "Ready to continue work on " +:+ projectName +:+ "!" +:+ q;
      "";
      "# Start shell with project context";
      "exec $SHELL";
      ""
    ].

(** [path.join('/tmp', `restore-${projectName.toLowerCase()}.sh`)], as a file
    name inside [/tmp]. *)
Definition scriptName (projectName : string) : string :=
  "restore-" +:+ Js.toLowerCase projectName +:+ ".sh".

(** A file of [/tmp]: its content and its permission bits. *)
Record tmp_file := {
  content : string;
  mode : string
}.

(** [fs.writeFileSync(scriptPath, scriptContent); fs.chmodSync(scriptPath, '755')]
    on the files of [/tmp], [generated] being the clock reading. *)
Definition createSessionScript (projectName : string)
    (environmentResult : environmentResult) (generated : string)
    (tmp : gmap string tmp_file) : gmap string tmp_file :=
  <[scriptName projectName :=
      {| content := scriptContent projectName environmentResult generated;
         mode := "755" |}]> tmp.

End SessionScript.

(** * Properties *)

(** ** Strings *)

Module JsFacts.
Import Js.

#[local] Arguments String.append !_ _ / : simpl nomatch.

(** The character [c] occurs in [s]. *)
Fixpoint has_char (c : ascii) (s : string) : bool :=
  match s with
  | EmptyString => false
  | String c' s' => bool_decide (c' = c) || has_char c s'
  end.

Lemma app_assoc' (a b c : string) : (a +:+ b) +:+ c = a +:+ b +:+ c.
Proof. induction a as [|x a IH]; simpl; [done | by rewrite IH]. Qed.

Lemma app_empty_r (a : string) : a +:+ "" = a.
Proof. induction a as [|x a IH]; simpl; [done | by rewrite IH]. Qed.

Lemma startsWith_spec (s pat : string) :
  startsWith s pat = true ↔ ∃ post, s = pat +:+ post.
Proof.
  unfold startsWith. revert s. induction pat as [|a pat IH]; intros s.
  - destruct s; simpl; split; eauto.
  - destruct s as [|b s]; simpl.
    + split; [done | intros [post Hpost]; discriminate].
    + destruct (ascii_dec a b) as [-> | Hne].
      * rewrite IH. split; intros [post Hpost]; exists post; congruence.
      * split; [done | intros [post Hpost]; congruence].
Qed.

Lemma includes_spec (s pat : string) :
  includes s pat = true ↔ ∃ pre post, s = pre +:+ pat +:+ post.
Proof.
  induction s as [|c s IH]; cbn [includes].
  - rewrite orb_false_r, startsWith_spec. split.
    + intros [post Hpost]. by exists "", post.
    + intros ([|x pre] & post & Hs); [by exists post | discriminate].
  - rewrite orb_true_iff, startsWith_spec, IH. split.
    + intros [[post Hpost] | (pre & post & Hs)].
      * by exists "", post.
      * exists (String c pre), post. by rewrite Hs.
    + intros ([|x pre] & post & Hs).
      * left. by exists post.
      * right. exists pre, post. simpl in Hs. congruence.
Qed.

Lemma endsWith_spec (s suf : string) :
  endsWith s suf = true ↔ ∃ pre, s = pre +:+ suf.
Proof.
  induction s as [|c s IH]; cbn [endsWith].
  - rewrite orb_false_r, bool_decide_eq_true. split.
    + intros <-. by exists "".
    + intros [[|x pre] Hs]; [done | discriminate].
  - rewrite orb_true_iff, bool_decide_eq_true, IH. split.
    + intros [<- | [pre Hs]]; [by exists "" |].
      exists (String c pre). by rewrite Hs.
    + intros [[|x pre] Hs]; [by left |].
      right. exists pre. simpl in Hs. congruence.
Qed.

Lemma includes_false (s pat : string) :
  includes s pat = false ↔ ¬ ∃ pre post, s = pre +:+ pat +:+ post.
Proof. rewrite <- includes_spec. by destruct (includes s pat). Qed.

Lemma toLowerCase_app (a b : string) :
  toLowerCase (a +:+ b) = toLowerCase a +:+ toLowerCase b.
Proof. induction a as [|x a IH]; simpl; [done | by rewrite IH]. Qed.

(** A split of the lowered string comes from a split of the string. *)
Lemma toLowerCase_split (s a b : string) :
  toLowerCase s = a +:+ b →
  ∃ a' b', s = a' +:+ b' ∧ toLowerCase a' = a ∧ toLowerCase b' = b.
Proof.
  revert s. induction a as [|x a IH]; intros s Hs.
  - by exists "", s.
  - destruct s as [|c s]; [discriminate |].
    simpl in Hs. injection Hs as Hc Hs.
    destruct (IH _ Hs) as (a' & b' & -> & Ha & Hb).
    exists (String c a'), b'. simpl. by rewrite Hc, Ha.
Qed.

Lemma has_char_app (c : ascii) (a b : string) :
  has_char c (a +:+ b) = has_char c a || has_char c b.
Proof.
  induction a as [|x a IH]; simpl; [done |].
  by rewrite IH, orb_assoc.
Qed.

Lemma split_app_sep (sep : ascii) (a b : string) :
  has_char sep a = false →
  split sep (a +:+ String sep b) = a :: split sep b.
Proof.
  induction a as [|x a IH]; simpl; intros Ha.
  - by rewrite bool_decide_true.
  - apply orb_false_iff in Ha as [Hx Ha].
    rewrite Hx, (IH Ha). done.
Qed.

Lemma split_no_sep (sep : ascii) (a : string) :
  has_char sep a = false → split sep a = [a].
Proof.
  induction a as [|x a IH]; simpl; intros Ha; [done |].
  apply orb_false_iff in Ha as [Hx Ha].
  by rewrite Hx, (IH Ha).
Qed.

(** Three lines joined by the separator split back into the three lines. *)
Lemma split_join3 (sep : ascii) (a b c : string) :
  has_char sep a = false → has_char sep b = false → has_char sep c = false →
  split sep (join (char sep) [a; b; c]) = [a; b; c].
Proof.
  intros Ha Hb Hc. unfold join, char. simpl.
  rewrite (split_app_sep sep a _ Ha), (split_app_sep sep b _ Hb).
  by rewrite (split_no_sep sep c Hc).
Qed.

End JsFacts.

(** ** Serialised records hold no line feed *)

Module JsonFacts.
Import Js JsFacts.

#[local] Arguments String.append !_ _ / : simpl nomatch.

Lemma escape_char_no_LF (c : ascii) : has_char LF (escape_char c) = false.
Proof. destruct c as [[] [] [] [] [] [] [] []]; vm_compute; reflexivity. Qed.

Lemma escape_no_LF (s : string) : has_char LF (escape s) = false.
Proof.
  induction s as [|c s IH]; simpl; [done |].
  by rewrite has_char_app, escape_char_no_LF, IH.
Qed.

Lemma quote_no_LF (s : string) : has_char LF (quote s) = false.
Proof.
  unfold quote. cbn [has_char].
  rewrite has_char_app, escape_no_LF. reflexivity.
Qed.

Lemma pretty_N_go_no_LF (x : N) (s : string) :
  has_char LF s = false → has_char LF (pretty_N_go x s) = false.
Proof.
  revert s. induction (N.lt_wf_0 x) as [x _ IH]; intros s Hs.
  assert (x = 0 ∨ 0 < x)%N as [-> | Hpos] by lia.
  - by rewrite pretty_N_go_0.
  - rewrite pretty_N_go_step by done. apply IH.
    + by apply N.div_lt.
    + cbn [has_char]. rewrite Hs, orb_false_r.
      unfold pretty_N_char. by repeat case_match.
Qed.

Lemma Number_toString_no_LF (n : nat) : has_char LF (Number_toString n) = false.
Proof.
  unfold Number_toString, pretty, pretty_nat, pretty, pretty_N.
  case_decide; [done |]. by apply pretty_N_go_no_LF.
Qed.

Lemma stringify_member_no_LF (kv : string * json_value) :
  has_char LF (stringify_member kv) = false.
Proof.
  unfold stringify_member. rewrite !has_char_app, quote_no_LF.
  destruct kv as [k [s | n]]; simpl.
  - apply quote_no_LF.
  - apply Number_toString_no_LF.
Qed.

Lemma join_no_char (c : ascii) (sep : string) (parts : list string) :
  has_char c sep = false →
  Forall (λ p, has_char c p = false) parts →
  has_char c (join sep parts) = false.
Proof.
  intros Hsep Hparts. induction Hparts as [|p ps Hp Hps IH]; [done |].
  destruct ps as [|q ps]; [done |].
  change (join sep (p :: q :: ps)) with (p +:+ sep +:+ join sep (q :: ps)).
  by rewrite !has_char_app, Hp, Hsep, IH.
Qed.

Lemma JSON_stringify_no_LF (obj : json_object) :
  has_char LF (JSON_stringify obj) = false.
Proof.
  unfold JSON_stringify. rewrite !has_char_app.
  rewrite join_no_char; [done | done |].
  apply Forall_fmap, Forall_forall. intros kv _. apply stringify_member_no_LF.
Qed.

End JsonFacts.

(** ** Running the monad *)

Module SysFacts.
Import Sys.

Lemma bind_run {A B} (m : M A) (k : A → M B) (w : world) :
  bind m k w = match m w with
               | (w', Return v) => k v w'
               | (w', Throw e) => (w', Throw e)
               end.
Proof. reflexivity. Qed.

Lemma try_catch_run {A} (body : M A) (handler : error → M A) (w : world) :
  try_catch body handler w = match body w with
                             | (w', Return v) => (w', Return v)
                             | (w', Throw e) => handler e w'
                             end.
Proof. reflexivity. Qed.

Lemma ret_run {A} (v : A) (w : world) : ret v w = (w, Return v).
Proof. reflexivity. Qed.

Lemma throw_run {A} (e : error) (w : world) : throw e w = (w, @Throw A e).
Proof. reflexivity. Qed.

Lemma gets_run {A} (f : world → A) (w : world) : gets f w = (w, Return (f w)).
Proof. reflexivity. Qed.

Lemma modify_run (f : world → world) (w : world) : modify f w = (f w, Return tt).
Proof. reflexivity. Qed.

Lemma Date_toISOString_run (w : world) :
  Date_toISOString w = (set_ticks (S (ticks w)) w, Return (clock w (ticks w))).
Proof. reflexivity. Qed.

(** Evaluate the leading binds of a computation applied to a world. *)
Ltac mrun :=
  repeat (first [ rewrite bind_run | rewrite try_catch_run | rewrite ret_run
                | rewrite throw_run | rewrite gets_run | rewrite modify_run
                | rewrite Date_toISOString_run ];
          cbv beta iota).

(** The same in a hypothesis. *)
Ltac mrun_in H :=
  repeat (first [ rewrite bind_run in H | rewrite try_catch_run in H
                | rewrite ret_run in H | rewrite throw_run in H
                | rewrite gets_run in H | rewrite modify_run in H
                | rewrite Date_toISOString_run in H ];
          cbv beta iota in H).

End SysFacts.

(** ** Consolidation *)

Module QuickSmartSessionsFacts.
Import Sys SysFacts Js JsFacts JsonFacts QuickSmartSessions.

#[local] Arguments String.append !_ _ / : simpl nomatch.

(** A session file, by its name: it ends in [.jsonl] and does not contain
    [SMART-START]. *)
Definition session_file_name (name : string) : Prop :=
  (∃ pre, name = pre +:+ ".jsonl") ∧
  ¬ (∃ pre post, name = pre +:+ "SMART-START" +:+ post).

(** [sessions] lists, once each, the session files of the directory. *)
Definition session_files (dir : gmap string string) (sessions : list string) : Prop :=
  NoDup sessions ∧ ∀ f, f ∈ sessions ↔ is_Some (dir !! f) ∧ session_file_name f.

(** The record a run writes when its clock stands at [t]. *)
Definition smartSessionContent (projectName : string) (sessionFiles : list string)
    (clock : nat → string) (t : nat) : string :=
  join nl
    [ JSON_stringify (smartSession projectName sessionFiles (clock t));
      JSON_stringify (contextMessage projectName sessionFiles (clock (S t)));
      JSON_stringify (suggestions projectName sessionFiles (clock (S (S t)))) ].

(** The world with the record file of a project set aside or replaced. *)
Definition with_record (projectName : string) (old : option string) (w : world) : world :=
  set_projects
    (alter (λ dir, match old with
                   | Some content => <[smartSessionName projectName := content]> dir
                   | None => delete (smartSessionName projectName) dir
                   end) projectName (projects w)) w.

Lemma is_session_file_spec (name : string) :
  is_session_file name = true ↔ session_file_name name.
Proof.
  unfold is_session_file, session_file_name.
  rewrite andb_true_iff, negb_true_iff, endsWith_spec, includes_false. done.
Qed.

Lemma smartSessionName_includes (projectName : string) :
  includes (smartSessionName projectName) "SMART-START" = true.
Proof.
  apply includes_spec. exists (projectName +:+ "-"), ".jsonl".
  unfold smartSessionName. by rewrite app_assoc'.
Qed.

Lemma includes_not_session_file (name : string) :
  includes name "SMART-START" = true → is_session_file name = false.
Proof. unfold is_session_file. intros ->. by rewrite andb_false_r. Qed.

Lemma smartSessionName_not_session_file (projectName : string) :
  ¬ session_file_name (smartSessionName projectName).
Proof.
  rewrite <- is_session_file_spec.
  by rewrite (includes_not_session_file _ (smartSessionName_includes projectName)).
Qed.

(** The list the script filters out of [readdirSync] is as long as any
    enumeration of the session files. *)
Lemma sessionFiles_length (dir : gmap string string) (sessions : list string) :
  session_files dir sessions →
  length (filter (λ file, is_session_file file) (elements (dom dir))) = length sessions.
Proof.
  intros [Hnodup Hin]. apply Permutation_length, NoDup_Permutation; [| done |].
  - apply NoDup_filter, NoDup_elements.
  - intros f. rewrite list_elem_of_filter, elem_of_elements, elem_of_dom, Hin.
    rewrite Is_true_true, is_session_file_spec. tauto.
Qed.

Lemma session_files_insert_record (projectName record : string)
    (dir : gmap string string) (sessions : list string) :
  session_files dir sessions →
  session_files (<[smartSessionName projectName := record]> dir) sessions.
Proof.
  intros [Hnodup Hin]. split; [done |]. intros f. rewrite Hin.
  destruct (decide (f = smartSessionName projectName)) as [-> | Hne].
  - split; intros [_ Hf]; by destruct (smartSessionName_not_session_file projectName).
  - by rewrite lookup_insert_ne.
Qed.

Lemma smartSessionContent_length (projectName : string) (l1 l2 : list string)
    (clock : nat → string) (t : nat) :
  length l1 = length l2 →
  smartSessionContent projectName l1 clock t = smartSessionContent projectName l2 clock t.
Proof.
  intros Hlen.
  unfold smartSessionContent, smartSession, contextMessage, suggestions.
  by rewrite Hlen.
Qed.

Lemma smartSessionContent_lines (projectName : string) (l : list string)
    (clock : nat → string) (t : nat) :
  split LF (smartSessionContent projectName l clock t) =
    [ JSON_stringify (smartSession projectName l (clock t));
      JSON_stringify (contextMessage projectName l (clock (S t)));
      JSON_stringify (suggestions projectName l (clock (S (S t)))) ].
Proof. apply split_join3; apply JSON_stringify_no_LF. Qed.

Lemma generateSmartContent_run (projectName : string) (l : list string) (w : world) :
  generateSmartContent projectName l w =
    (set_ticks (3 + ticks w) w, Return (smartSessionContent projectName l (clock w) (ticks w))).
Proof. by destruct w. Qed.

(** One run, step by step. *)
Lemma generateQuickSmartSession_run (projectName : string) (w : world)
    (dir : gmap string string) :
  projects w !! projectName = Some dir →
  let sessionFiles := filter (λ file, is_session_file file) (elements (dom dir)) in
  generateQuickSmartSession projectName w =
    if bool_decide (length sessionFiles = 0) then (w, Return tt)
    else (set_projects
            (<[projectName :=
                <[smartSessionName projectName :=
                    smartSessionContent projectName sessionFiles (clock w) (ticks w)]> dir]>
               (projects w))
            (set_ticks (3 + ticks w) w),
          Return tt).
Proof.
  intros Hdir sessionFiles.
  unfold generateQuickSmartSession, existsSync_project, readdirSync_project.
  mrun. rewrite Hdir. rewrite bool_decide_true by eauto. cbn [negb].
  mrun. rewrite Hdir. mrun. fold sessionFiles.
  case_bool_decide as Hempty; [done |].
  mrun. rewrite generateSmartContent_run.
  unfold writeFileSync_project. mrun. cbn [projects set_ticks]. rewrite Hdir.
  by mrun.
Qed.

Lemma session_files_elements (dir : gmap string string) :
  session_files dir (filter (λ file, is_session_file file) (elements (dom dir))).
Proof.
  split.
  - apply NoDup_filter, NoDup_elements.
  - intros f. rewrite list_elem_of_filter, elem_of_elements, elem_of_dom.
    rewrite Is_true_true, is_session_file_spec. tauto.
Qed.

Lemma smartSessionFile_written (projectName record : string) (w : world)
    (dir : gmap string string) (dirs : gmap string (gmap string string)) :
  SmartStart.smartSessionFile
    (set_projects (<[projectName := <[smartSessionName projectName := record]> dir]> dirs) w)
    projectName = Some record.
Proof.
  unfold SmartStart.smartSessionFile. cbn [projects set_projects].
  rewrite lookup_insert_eq. cbn. by rewrite lookup_insert_eq.
Qed.

(** A project directory with two session files, an earlier record and a
    file that is not a session. *)
Definition demo_dir : gmap string string :=
  {[ "a.jsonl" := "{}"; "b.jsonl" := "{}";
     "demo-SMART-START.jsonl" := "stale"; "notes.txt" := "" ]}.

Definition demo_world : world :=
  {| projects := {[ "demo" := demo_dir ]};
     current_project := None;
     logs := None;
     project_stats := None;
     clock := λ n, "2025-01-01T00:00:0" +:+ pretty n +:+ ".000Z";
     ticks := 0 |}.

Definition demo_sessions : list string :=
  Eval vm_compute in filter (λ file, is_session_file file) (elements (dom demo_dir)).

Lemma demo_session_files : session_files demo_dir demo_sessions.
Proof.
  assert (demo_sessions = filter (λ file, is_session_file file) (elements (dom demo_dir)))
    as -> by (vm_compute; reflexivity).
  apply session_files_elements.
Qed.

(** A project directory without session files. *)
Definition idle_world : world :=
  {| projects := {[ "idle" := {[ "notes.txt" := "" ]} ]};
     current_project := None;
     logs := None;
     project_stats := None;
     clock := λ _, "2025-01-01T00:00:00.000Z";
     ticks := 0 |}.

Lemma idle_session_files : session_files {[ "notes.txt" := "" ]} [].
Proof.
  assert ([] = filter (λ file, is_session_file file)
                 (elements (dom ({[ "notes.txt" := "" ]} : gmap string string))))
    as -> by (vm_compute; reflexivity).
  apply session_files_elements.
Qed.

(** C1.  For a project whose directory holds N session files (names ending
    in [.jsonl] that do not contain [SMART-START]), N >= 1, consolidation
    returns normally and leaves a record whose first line is the header
    object with [consolidated_sessions] equal to N. *)
Theorem C1_header_counts_session_files (projectName : string) (w : world)
    (dir : gmap string string) (sessions : list string) :
  projects w !! projectName = Some dir →
  session_files dir sessions →
  1 ≤ length sessions →
  ∃ w' record,
    generateQuickSmartSession projectName w = (w', Return tt) ∧
    SmartStart.smartSessionFile w' projectName = Some record ∧
    head (split LF record) =
      Some (JSON_stringify (smartSession projectName sessions (clock w (ticks w)))) ∧
    get (smartSession projectName sessions (clock w (ticks w))) "consolidated_sessions" =
      Some (JNumber (length sessions)).
Proof.
  intros Hdir Hsessions Hlen.
  pose proof (sessionFiles_length dir sessions Hsessions) as Hcount.
  eexists _, _. rewrite (generateQuickSmartSession_run projectName w dir Hdir).
  rewrite bool_decide_false by lia.
  split; [reflexivity |]. split; [apply smartSessionFile_written |].
  split; [| reflexivity].
  rewrite (smartSessionContent_length projectName _ sessions _ _ Hcount).
  by rewrite smartSessionContent_lines.
Qed.

Lemma C1_witness :
  ∃ w' record,
    generateQuickSmartSession "demo" demo_world = (w', Return tt) ∧
    SmartStart.smartSessionFile w' "demo" = Some record ∧
    head (split LF record) =
      Some (JSON_stringify
              (smartSession "demo" demo_sessions (clock demo_world (ticks demo_world)))) ∧
    get (smartSession "demo" demo_sessions (clock demo_world (ticks demo_world)))
      "consolidated_sessions" = Some (JNumber (length demo_sessions)).
Proof.
  apply (C1_header_counts_session_files "demo" demo_world demo_dir demo_sessions).
  - vm_compute; reflexivity.
  - exact demo_session_files.
  - vm_compute; lia.
Defined.

(** C6.  With at least one session file, consolidation writes the record,
    exactly three lines (header, context, suggestions) joined by line feeds,
    to [<project>/<project>-SMART-START.jsonl] and touches no other file;
    with none it returns early and leaves the world as it was. *)
Theorem C6_three_lines_or_nothing (projectName : string) (w : world)
    (dir : gmap string string) (sessions : list string) :
  projects w !! projectName = Some dir →
  session_files dir sessions →
  ∃ w',
    generateQuickSmartSession projectName w = (w', Return tt) ∧
    match sessions with
    | [] => w' = w
    | _ :: _ =>
        let header :=
          JSON_stringify (smartSession projectName sessions (clock w (ticks w))) in
        let context :=
          JSON_stringify (contextMessage projectName sessions (clock w (S (ticks w)))) in
        let suggestion_line :=
          JSON_stringify (suggestions projectName sessions (clock w (S (S (ticks w))))) in
        let record := join nl [header; context; suggestion_line] in
        split LF record = [header; context; suggestion_line] ∧
        projects w' =
          <[projectName := <[smartSessionName projectName := record]> dir]> (projects w) ∧
        current_project w' = current_project w ∧
        logs w' = logs w ∧
        project_stats w' = project_stats w
    end.
Proof.
  intros Hdir Hsessions.
  pose proof (sessionFiles_length dir sessions Hsessions) as Hcount.
  rewrite (generateQuickSmartSession_run projectName w dir Hdir).
  destruct sessions as [|s sessions].
  - exists w. by rewrite bool_decide_true.
  - rewrite bool_decide_false by (rewrite Hcount; done).
    eexists. split; [reflexivity |].
    rewrite (smartSessionContent_length projectName _ (s :: sessions) _ _ Hcount).
    split; [apply smartSessionContent_lines | done].
Qed.

Lemma C6_witness :
  (∃ w',
     generateQuickSmartSession "demo" demo_world = (w', Return tt) ∧
     projects w' !! "demo" ≫= (.!! "demo-SMART-START.jsonl") =
       Some (smartSessionContent "demo" demo_sessions (clock demo_world) 0)) ∧
  generateQuickSmartSession "idle" idle_world = (idle_world, Return tt).
Proof.
  split.
  - destruct (C6_three_lines_or_nothing "demo" demo_world demo_dir demo_sessions)
      as (w' & Hrun & _ & Hprojects & _).
    + vm_compute; reflexivity.
    + exact demo_session_files.
    + exists w'. split; [exact Hrun |].
      rewrite Hprojects. vm_compute; reflexivity.
  - destruct (C6_three_lines_or_nothing "idle" idle_world {[ "notes.txt" := "" ]} [])
      as (w' & Hrun & Hsame).
    + vm_compute; reflexivity.
    + exact idle_session_files.
    + rewrite Hrun. by rewrite Hsame.
Defined.

(** The record a run leaves does not depend on the record it found. *)
Lemma generateQuickSmartSession_overwrites (projectName : string) (w : world)
    (dir : gmap string string) (sessions : list string) (old : option string) :
  projects w !! projectName = Some dir →
  session_files dir sessions →
  sessions ≠ [] →
  SmartStart.smartSessionFile
    (generateQuickSmartSession projectName (with_record projectName old w)).1 projectName =
    Some (smartSessionContent projectName sessions (clock w) (ticks w)).
Proof.
  intros Hdir [Hnodup Hin] Hne.
  set (dir' := match old with
               | Some content => <[smartSessionName projectName := content]> dir
               | None => delete (smartSessionName projectName) dir
               end).
  assert (projects (with_record projectName old w) !! projectName = Some dir') as Hdir'.
  { unfold with_record. cbn [projects set_projects].
    rewrite lookup_alter_eq, Hdir. done. }
  assert (session_files dir' sessions) as Hsessions'.
  { split; [done |]. intros f. rewrite Hin. unfold dir'.
    destruct (decide (f = smartSessionName projectName)) as [-> | Hf].
    - split; intros [_ Hf]; by destruct (smartSessionName_not_session_file projectName).
    - destruct old; by rewrite ?lookup_insert_ne, ?lookup_delete_ne. }
  pose proof (sessionFiles_length dir' sessions Hsessions') as Hcount.
  rewrite (generateQuickSmartSession_run _ _ dir' Hdir').
  rewrite bool_decide_false by (rewrite Hcount; by destruct sessions).
  cbn [fst]. rewrite smartSessionFile_written.
  by rewrite (smartSessionContent_length projectName _ sessions _ _ Hcount).
Qed.

(** C7.  A second run replaces the record wholesale: what the file holds
    after it is the record of the second run alone, whatever the record of
    the first run was (or had it been absent). *)
Theorem C7_second_run_replaces_record (projectName : string) (w : world)
    (dir : gmap string string) (sessions : list string) :
  projects w !! projectName = Some dir →
  session_files dir sessions →
  sessions ≠ [] →
  ∃ w1 w2 first second,
    generateQuickSmartSession projectName w = (w1, Return tt) ∧
    SmartStart.smartSessionFile w1 projectName = Some first ∧
    generateQuickSmartSession projectName w1 = (w2, Return tt) ∧
    SmartStart.smartSessionFile w2 projectName = Some second ∧
    second = smartSessionContent projectName sessions (clock w1) (ticks w1) ∧
    ∀ old : option string,
      SmartStart.smartSessionFile
        (generateQuickSmartSession projectName (with_record projectName old w1)).1
        projectName = Some second.
Proof.
  intros Hdir Hsessions Hne.
  pose proof (sessionFiles_length dir sessions Hsessions) as Hcount.
  assert (length sessions ≠ 0) as Hlen by (by destruct sessions).
  pose proof (generateQuickSmartSession_run projectName w dir Hdir) as Hrun1.
  cbv zeta in Hrun1. rewrite bool_decide_false in Hrun1 by lia.
  set (first := smartSessionContent projectName
                  (filter (λ file, is_session_file file) (elements (dom dir)))
                  (clock w) (ticks w)) in Hrun1.
  set (dir1 := <[smartSessionName projectName := first]> dir) in Hrun1.
  set (w1 := set_projects (<[projectName := dir1]> (projects w))
               (set_ticks (3 + ticks w) w)) in Hrun1.
  assert (projects w1 !! projectName = Some dir1) as Hdir1.
  { unfold w1. cbn [projects set_projects]. by rewrite lookup_insert_eq. }
  assert (session_files dir1 sessions) as Hsessions1
    by (by apply session_files_insert_record).
  pose proof (sessionFiles_length dir1 sessions Hsessions1) as Hcount1.
  pose proof (generateQuickSmartSession_run projectName w1 dir1 Hdir1) as Hrun2.
  cbv zeta in Hrun2. rewrite bool_decide_false in Hrun2 by lia.
  eexists w1, _, first, _.
  split; [exact Hrun1 |]. split; [apply smartSessionFile_written |].
  split; [exact Hrun2 |]. split; [apply smartSessionFile_written |].
  split.
  - by apply smartSessionContent_length.
  - intros old.
    rewrite (generateQuickSmartSession_overwrites projectName w1 dir1 sessions old)
      by done.
    f_equal. symmetry. by apply smartSessionContent_length.
Qed.

Lemma C7_witness :
  ∃ w1 w2 first second,
    generateQuickSmartSession "demo" demo_world = (w1, Return tt) ∧
    SmartStart.smartSessionFile w1 "demo" = Some first ∧
    generateQuickSmartSession "demo" w1 = (w2, Return tt) ∧
    SmartStart.smartSessionFile w2 "demo" = Some second ∧
    second = smartSessionContent "demo" demo_sessions (clock w1) (ticks w1) ∧
    ∀ old : option string,
      SmartStart.smartSessionFile
        (generateQuickSmartSession "demo" (with_record "demo" old w1)).1 "demo" =
        Some second.
Proof.
  apply (C7_second_run_replaces_record "demo" demo_world demo_dir demo_sessions).
  - vm_compute; reflexivity.
  - exact demo_session_files.
  - vm_compute; discriminate.
Defined.

(** C8.  The filter drops every name that contains [SMART-START], the
    record's own name among them; so when the session files stay the same, a
    run after a previous run finds the record in the directory and still
    reports the same [consolidated_sessions]. *)
Theorem C8_record_is_not_a_session (projectName : string) (w : world)
    (dir : gmap string string) (sessions : list string) :
  projects w !! projectName = Some dir →
  session_files dir sessions →
  sessions ≠ [] →
  (∀ name, includes name "SMART-START" = true → is_session_file name = false) ∧
  is_session_file (smartSessionName projectName) = false ∧
  ∃ w1 w2 dir1 first second,
    generateQuickSmartSession projectName w = (w1, Return tt) ∧
    projects w1 !! projectName = Some dir1 ∧
    dir1 !! smartSessionName projectName = Some first ∧
    session_files dir1 sessions ∧
    generateQuickSmartSession projectName w1 = (w2, Return tt) ∧
    SmartStart.smartSessionFile w2 projectName = Some second ∧
    head (split LF first) =
      Some (JSON_stringify (smartSession projectName sessions (clock w (ticks w)))) ∧
    head (split LF second) =
      Some (JSON_stringify (smartSession projectName sessions (clock w1 (ticks w1)))) ∧
    ∀ generated_at,
      get (smartSession projectName sessions generated_at) "consolidated_sessions" =
        Some (JNumber (length sessions)).
Proof.
  intros Hdir Hsessions Hne.
  split; [exact includes_not_session_file |].
  split; [apply includes_not_session_file, smartSessionName_includes |].
  pose proof (sessionFiles_length dir sessions Hsessions) as Hcount.
  assert (length sessions ≠ 0) as Hlen by (by destruct sessions).
  pose proof (generateQuickSmartSession_run projectName w dir Hdir) as Hrun1.
  cbv zeta in Hrun1. rewrite bool_decide_false in Hrun1 by lia.
  rewrite (smartSessionContent_length projectName _ sessions _ _ Hcount) in Hrun1.
  set (first := smartSessionContent projectName sessions (clock w) (ticks w)) in Hrun1.
  set (dir1 := <[smartSessionName projectName := first]> dir) in Hrun1.
  set (w1 := set_projects (<[projectName := dir1]> (projects w))
               (set_ticks (3 + ticks w) w)) in Hrun1.
  assert (projects w1 !! projectName = Some dir1) as Hdir1.
  { unfold w1. cbn [projects set_projects]. by rewrite lookup_insert_eq. }
  assert (session_files dir1 sessions) as Hsessions1
    by (by apply session_files_insert_record).
  pose proof (sessionFiles_length dir1 sessions Hsessions1) as Hcount1.
  pose proof (generateQuickSmartSession_run projectName w1 dir1 Hdir1) as Hrun2.
  cbv zeta in Hrun2. rewrite bool_decide_false in Hrun2 by lia.
  rewrite (smartSessionContent_length projectName _ sessions _ _ Hcount1) in Hrun2.
  eexists w1, _, dir1, first, _.
  split; [exact Hrun1 |]. split; [exact Hdir1 |].
  split; [apply lookup_insert_eq |]. split; [exact Hsessions1 |].
  split; [exact Hrun2 |]. split; [apply smartSessionFile_written |].
  split; [unfold first; by rewrite smartSessionContent_lines |].
  split; [by rewrite smartSessionContent_lines | done].
Qed.

Lemma C8_witness :
  (∀ name, includes name "SMART-START" = true → is_session_file name = false) ∧
  is_session_file (smartSessionName "demo") = false ∧
  ∃ w1 w2 dir1 first second,
    generateQuickSmartSession "demo" demo_world = (w1, Return tt) ∧
    projects w1 !! "demo" = Some dir1 ∧
    dir1 !! smartSessionName "demo" = Some first ∧
    session_files dir1 demo_sessions ∧
    generateQuickSmartSession "demo" w1 = (w2, Return tt) ∧
    SmartStart.smartSessionFile w2 "demo" = Some second ∧
    head (split LF first) =
      Some (JSON_stringify
              (smartSession "demo" demo_sessions (clock demo_world (ticks demo_world)))) ∧
    head (split LF second) =
      Some (JSON_stringify (smartSession "demo" demo_sessions (clock w1 (ticks w1)))) ∧
    ∀ generated_at,
      get (smartSession "demo" demo_sessions generated_at) "consolidated_sessions" =
        Some (JNumber (length demo_sessions)).
Proof.
  apply (C8_record_is_not_a_session "demo" demo_world demo_dir demo_sessions).
  - vm_compute; reflexivity.
  - exact demo_session_files.
  - vm_compute; discriminate.
Defined.

End QuickSmartSessionsFacts.

(** ** Restoration *)

Module SmartStartFacts.
Import Sys SysFacts SmartStart.

Section Restorer.

Context {JSON chittyChatProject environmentResult : Type}.
Context (JSON_parse : string → option JSON).
Context (connectToChittyChat : string → M chittyChatProject).
Context (restoreProjectEnvironment :
           string → smart_session JSON → M (option environmentResult)).
Context (displaySmartContext : smart_session JSON → M unit).
Context (setupChittyChatIntegration : string → chittyChatProject → M unit).
Context (createSessionScript : string → environmentResult → M unit).

#[local] Abbreviation load := (loadSmartSession JSON JSON_parse).
#[local] Abbreviation start :=
  (startSmartSession JSON JSON_parse chittyChatProject environmentResult
     connectToChittyChat restoreProjectEnvironment displaySmartContext
     setupChittyChatIntegration createSessionScript).

(** The ways a restoration fails: there is no record to load, or one of the
    steps after loading throws.  The last world is the one the failure
    leaves. *)
Inductive restoration_fails (projectName : string) (w : world) : world → Prop :=
| no_record :
    smartSessionFile w projectName = None →
    restoration_fails projectName w w
| connect_throws w1 session w' e :
    load projectName w = (w1, Return (Some session)) →
    connectToChittyChat projectName w1 = (w', Throw e) →
    restoration_fails projectName w w'
| restore_throws w1 session w2 project w' e :
    load projectName w = (w1, Return (Some session)) →
    connectToChittyChat projectName w1 = (w2, Return project) →
    restoreProjectEnvironment projectName session w2 = (w', Throw e) →
    restoration_fails projectName w w'
| restore_yields_nothing w1 session w2 project w' :
    load projectName w = (w1, Return (Some session)) →
    connectToChittyChat projectName w1 = (w2, Return project) →
    restoreProjectEnvironment projectName session w2 = (w', Return None) →
    restoration_fails projectName w w'
| display_throws w1 session w2 project w3 environment w' e :
    load projectName w = (w1, Return (Some session)) →
    connectToChittyChat projectName w1 = (w2, Return project) →
    restoreProjectEnvironment projectName session w2 = (w3, Return (Some environment)) →
    displaySmartContext session w3 = (w', Throw e) →
    restoration_fails projectName w w'
| setup_throws w1 session w2 project w3 environment w4 w' e :
    load projectName w = (w1, Return (Some session)) →
    connectToChittyChat projectName w1 = (w2, Return project) →
    restoreProjectEnvironment projectName session w2 = (w3, Return (Some environment)) →
    displaySmartContext session w3 = (w4, Return tt) →
    setupChittyChatIntegration projectName project w4 = (w', Throw e) →
    restoration_fails projectName w w'
| script_throws w1 session w2 project w3 environment w4 w5 w' e :
    load projectName w = (w1, Return (Some session)) →
    connectToChittyChat projectName w1 = (w2, Return project) →
    restoreProjectEnvironment projectName session w2 = (w3, Return (Some environment)) →
    displaySmartContext session w3 = (w4, Return tt) →
    setupChittyChatIntegration projectName project w4 = (w5, Return tt) →
    createSessionScript projectName environment w5 = (w', Throw e) →
    restoration_fails projectName w w'.

(** Loading never throws and leaves the world alone. *)
Lemma loadSmartSession_total (projectName : string) (w : world) :
  ∃ session, load projectName w = (w, Return session).
Proof.
  unfold loadSmartSession, existsSync_smartSession, readFileSync_smartSession.
  mrun. destruct (smartSessionFile w projectName) as [content |] eqn:Hfile.
  - rewrite bool_decide_true by eauto. cbn [negb]. mrun. rewrite Hfile. mrun.
    unfold parse at 1.
    destruct (Js.split Js.LF (Js.trim content) !! 0 ≫= JSON_parse) as [data |];
      mrun; [| by eexists].
    unfold parse_if_present at 1.
    destruct (Js.split Js.LF (Js.trim content) !! 1) as [line1 |]; mrun.
    + case_bool_decide; mrun.
      * unfold parse_if_present.
        destruct (Js.split Js.LF (Js.trim content) !! 2) as [line2 |]; mrun;
          [| by eexists].
        case_bool_decide; mrun; [by eexists |].
        unfold parse. destruct (Some line2 ≫= JSON_parse); mrun; by eexists.
      * unfold parse at 1. destruct (Some line1 ≫= JSON_parse); mrun; [| by eexists].
        unfold parse_if_present.
        destruct (Js.split Js.LF (Js.trim content) !! 2) as [line2 |]; mrun;
          [| by eexists].
        case_bool_decide; mrun; [by eexists |].
        unfold parse. destruct (Some line2 ≫= JSON_parse); mrun; by eexists.
    + unfold parse_if_present.
      destruct (Js.split Js.LF (Js.trim content) !! 2) as [line2 |]; mrun;
        [| by eexists].
      case_bool_decide; mrun; [by eexists |].
      unfold parse. destruct (Some line2 ≫= JSON_parse); mrun; by eexists.
  - rewrite bool_decide_false by (by intros [? ?]). cbn [negb]. mrun. by eexists.
Qed.

Lemma loadSmartSession_no_record (projectName : string) (w : world) :
  smartSessionFile w projectName = None →
  load projectName w = (w, Return None).
Proof.
  intros Hfile. unfold loadSmartSession, existsSync_smartSession. mrun.
  rewrite Hfile. rewrite bool_decide_false by (by intros [? ?]). done.
Qed.

(** [startSmartSession] always returns a boolean: no exception escapes. *)
Lemma startSmartSession_total (projectName : string) (w : world) :
  ∃ w' b, start projectName w = (w', Return b).
Proof.
  unfold startSmartSession, startSmartSession_try. mrun.
  destruct (loadSmartSession_total projectName w) as [[session |] ->]; mrun;
    [| by eexists _, _].
  destruct (connectToChittyChat projectName w) as [w2 [project | e]]; mrun;
    [| by eexists _, _].
  destruct (restoreProjectEnvironment projectName session w2)
    as [w3 [[environment |] | e]]; mrun; [| by eexists _, _ ..].
  destruct (displaySmartContext session w3) as [w4 [[] | e]]; mrun;
    [| by eexists _, _].
  destruct (setupChittyChatIntegration projectName project w4) as [w5 [[] | e]]; mrun;
    [| by eexists _, _].
  destruct (createSessionScript projectName environment w5) as [w6 [[] | e]]; mrun;
    by eexists _, _.
Qed.

(** C5.  When the project has no consolidated record, and likewise when a
    restoration step throws, [startSmartSession] returns [false]; it does
    not throw. *)
Theorem C5_restoration_fails_gracefully (projectName : string) (w w' : world) :
  restoration_fails projectName w w' →
  start projectName w = (w', Return false).
Proof.
  intros Hfails. unfold startSmartSession, startSmartSession_try. mrun.
  destruct Hfails as
    [ Hfile
    | w1 session w' e Hload Hconnect
    | w1 session w2 project w' e Hload Hconnect Hrestore
    | w1 session w2 project w' Hload Hconnect Hrestore
    | w1 session w2 project w3 environment w' e Hload Hconnect Hrestore Hdisplay
    | w1 session w2 project w3 environment w4 w' e
        Hload Hconnect Hrestore Hdisplay Hsetup
    | w1 session w2 project w3 environment w4 w5 w' e
        Hload Hconnect Hrestore Hdisplay Hsetup Hscript ].
  - rewrite (loadSmartSession_no_record projectName w Hfile). by mrun.
  - rewrite Hload. mrun. rewrite Hconnect. by mrun.
  - rewrite Hload. mrun. rewrite Hconnect. mrun. rewrite Hrestore. by mrun.
  - rewrite Hload. mrun. rewrite Hconnect. mrun. rewrite Hrestore. by mrun.
  - rewrite Hload. mrun. rewrite Hconnect. mrun. rewrite Hrestore. mrun.
    rewrite Hdisplay. by mrun.
  - rewrite Hload. mrun. rewrite Hconnect. mrun. rewrite Hrestore. mrun.
    rewrite Hdisplay. mrun. rewrite Hsetup. by mrun.
  - rewrite Hload. mrun. rewrite Hconnect. mrun. rewrite Hrestore. mrun.
    rewrite Hdisplay. mrun. rewrite Hsetup. mrun. rewrite Hscript. by mrun.
Qed.

End Restorer.

(** A restorer whose environment step fails, over a parser that accepts
    every line. *)
Definition failing_restore : string → smart_session unit → M (option unit) :=
  λ _ _, throw (Error "environment restoration failed").

Lemma C5_witness :
  startSmartSession unit (λ _, Some tt) unit unit
    (λ _, ret tt) (λ _ _, ret (Some tt)) (λ _, ret tt) (λ _ _, ret tt) (λ _ _, ret tt)
    "idle" QuickSmartSessionsFacts.idle_world =
    (QuickSmartSessionsFacts.idle_world, Return false) ∧
  startSmartSession unit (λ _, Some tt) unit unit
    (λ _, ret tt) failing_restore (λ _, ret tt) (λ _ _, ret tt) (λ _ _, ret tt)
    "demo" QuickSmartSessionsFacts.demo_world =
    (QuickSmartSessionsFacts.demo_world, Return false).
Proof.
  split.
  - apply C5_restoration_fails_gracefully, no_record.
    vm_compute; reflexivity.
  - apply C5_restoration_fails_gracefully.
    eapply (restore_throws _ _ _ _ _ _ "demo" QuickSmartSessionsFacts.demo_world
              QuickSmartSessionsFacts.demo_world
              {| sessionData := tt; contextMessage := None; suggestions := None |}
              QuickSmartSessionsFacts.demo_world tt).
    + vm_compute; reflexivity.
    + reflexivity.
    + reflexivity.
Defined.

End SmartStartFacts.

(** ** Keyword scoring *)

Module ScoringFacts.
Import Sys SysFacts Js JsFacts PostToolHook.

#[local] Arguments String.append !_ _ / : simpl nomatch.
#[local] Opaque Number.

(** [keyword] occurs in [text] as a substring, up to letter case. *)
Definition occurs_ignoring_case (text keyword : string) : Prop :=
  ∃ pre mid post,
    text = pre +:+ mid +:+ post ∧ toLowerCase mid = toLowerCase keyword.

(** [n] of the items satisfy [P]. *)
Inductive count_of {A} (P : A → Prop) : list A → nat → Prop :=
| count_nil : count_of P [] 0
| count_hit x l n : P x → count_of P l n → count_of P (x :: l) (S n)
| count_miss x l n : ¬ P x → count_of P l n → count_of P (x :: l) n.

(** The entry the loop records for a table row, if any. *)
Definition score (lowerResult : string) (entry : string * list string)
    : option projectMatch.t :=
  let n := matchCount lowerResult entry.2 in
  if bool_decide (0 < n)
  then Some {| projectMatch.project := entry.1;
               projectMatch.matches := n;
               projectMatch.confidence := confidence n entry.2 |}
  else None.

Lemma occurs_ignoring_case_includes (text keyword : string) :
  occurs_ignoring_case text keyword ↔
  includes (toLowerCase text) (toLowerCase keyword) = true.
Proof.
  rewrite includes_spec. split.
  - intros (pre & mid & post & -> & Hmid).
    exists (toLowerCase pre), (toLowerCase post).
    by rewrite !toLowerCase_app, Hmid.
  - intros (a & b & Hsplit).
    destruct (toLowerCase_split _ _ _ Hsplit) as (pre & rest & -> & Hpre & Hrest).
    destruct (toLowerCase_split _ _ _ Hrest) as (mid & post & -> & Hmid & Hpost).
    by exists pre, mid, post.
Qed.

Lemma count_of_functional {A} (P : A → Prop) (l : list A) (n n' : nat) :
  count_of P l n → count_of P l n' → n = n'.
Proof.
  intros Hn. revert n'.
  induction Hn as [| x l n Hx _ IH | x l n Hx _ IH]; intros n' Hn';
    inversion Hn'; subst; try done.
  - f_equal. by apply IH.
  - by apply IH.
Qed.

Lemma count_of_filter {A} (P : A → Prop) (Q : A → bool) (l : list A) (n : nat) :
  Forall (λ x, P x ↔ Q x = true) l →
  count_of P l n → length (filter (λ x, Q x) l) = n.
Proof.
  intros Hl Hn. induction Hn as [| x l n Hx _ IH | x l n Hx _ IH].
  - done.
  - apply Forall_cons in Hl as [HPQ Hl].
    rewrite filter_cons_True by (apply Is_true_true, HPQ, Hx).
    cbn [length]. f_equal. by apply IH.
  - apply Forall_cons in Hl as [HPQ Hl].
    rewrite filter_cons_False by (rewrite Is_true_true, <- HPQ; exact Hx).
    by apply IH.
Qed.

Lemma count_of_exists {A} (P : A → Prop) (Q : A → bool) (l : list A) :
  Forall (λ x, P x ↔ Q x = true) l →
  count_of P l (length (filter (λ x, Q x) l)).
Proof.
  induction 1 as [| x l HPQ _ IH]; [constructor |].
  destruct (Q x) eqn:HQ.
  - rewrite filter_cons_True by (by rewrite HQ).
    apply count_hit; [by apply HPQ | done].
  - rewrite filter_cons_False by (rewrite HQ; exact id).
    apply count_miss; [| done]. rewrite HPQ. congruence.
Qed.

(** The keywords of the table are in lower case already. *)
Lemma projectKeywords_lower :
  Forall (λ entry, Forall (λ keyword, toLowerCase keyword = keyword) entry.2)
    projectKeywords.
Proof. repeat constructor. Qed.

Lemma projectKeywords_sizes :
  Forall (λ entry, 1 ≤ length entry.2 ≤ 6) projectKeywords.
Proof. repeat constructor. Qed.

(** On a row of the table, the test of the script is the occurrence up to
    letter case. *)
Lemma keyword_test (toolResult project : string) (keywords : list string) :
  (project, keywords) ∈ projectKeywords →
  Forall (λ keyword, occurs_ignoring_case toolResult keyword ↔
                     includes (toLowerCase toolResult) keyword = true) keywords.
Proof.
  intros Hentry.
  pose proof (proj1 (Forall_forall _ _) projectKeywords_lower _ Hentry) as Hlower.
  cbn [snd] in Hlower.
  eapply Forall_impl; [exact Hlower |]. intros keyword Hkeyword. cbn beta.
  by rewrite occurs_ignoring_case_includes, Hkeyword.
Qed.

Lemma matchCount_count (toolResult project : string) (keywords : list string) (n : nat) :
  (project, keywords) ∈ projectKeywords →
  count_of (occurs_ignoring_case toolResult) keywords n →
  matchCount (toLowerCase toolResult) keywords = n.
Proof.
  intros Hentry Hn. unfold matchCount.
  by apply (count_of_filter _ _ _ _ (keyword_test toolResult project keywords Hentry)).
Qed.

(** The loop with [push] collects the rows that score. *)
Lemma foldl_scoreProject (lowerResult : string) (table : list (string * list string))
    (acc : list projectMatch.t) :
  foldl (scoreProject lowerResult) acc table = acc ++ omap (score lowerResult) table.
Proof.
  revert acc. induction table as [| entry table IH]; intros acc; cbn [foldl omap list_omap].
  - by rewrite app_nil_r.
  - rewrite IH. unfold scoreProject, score.
    case_bool_decide; [by rewrite <- app_assoc | done].
Qed.

Lemma projectMatches_omap (lowerResult : string) :
  projectMatches lowerResult = omap (score lowerResult) projectKeywords.
Proof. unfold projectMatches. by rewrite foldl_scoreProject. Qed.

Lemma score_project (lowerResult : string) (entry : string * list string)
    (m : projectMatch.t) :
  score lowerResult entry = Some m → projectMatch.project m = entry.1.
Proof. unfold score. case_bool_decide; [| done]. by intros [= <-]. Qed.

Lemma projectKeywords_lookup (project : string) (keywords keywords' : list string) :
  (project, keywords) ∈ projectKeywords →
  (project, keywords') ∈ projectKeywords →
  keywords = keywords'.
Proof.
  intros H1 H2. unfold projectKeywords in H1, H2.
  rewrite !elem_of_cons, elem_of_nil in H1.
  rewrite !elem_of_cons, elem_of_nil in H2.
  destruct H1 as [H1 | [H1 | [H1 | [H1 | [H1 | []]]]]];
    destruct H2 as [H2 | [H2 | [H2 | [H2 | [H2 | []]]]]];
    congruence.
Qed.

(** C3.  For every tool-result string and every row of the table, with [n]
    the number of the row's keywords that occur in the string up to letter
    case: the score recorded for the project has [matches] = [n] and
    [confidence] = [n / keywords.length]; a score is recorded exactly when
    [n] is positive. *)
Theorem C3_confidence_is_matched_over_total (toolResult project : string)
    (keywords : list string) (n : nat) :
  (project, keywords) ∈ projectKeywords →
  count_of (occurs_ignoring_case toolResult) keywords n →
  let scores := projectMatches (toLowerCase toolResult) in
  (100 < String.length toolResult → resultMatches toolResult = Some scores) ∧
  (∀ m, m ∈ scores → projectMatch.project m = project →
     projectMatch.matches m = n ∧
     projectMatch.confidence m = PrimFloat.div (Number n) (Number (length keywords))) ∧
  (0 < n ↔ ∃ m, m ∈ scores ∧ projectMatch.project m = project).
Proof.
  intros Hentry Hn scores.
  pose proof (matchCount_count _ _ _ _ Hentry Hn) as Hcount.
  split; [| split].
  - intros Hlong. unfold resultMatches. by rewrite bool_decide_true.
  - intros m Hm Hproject. unfold scores in Hm.
    rewrite projectMatches_omap, list_elem_of_omap in Hm.
    destruct Hm as ([project' keywords'] & Hentry' & Hscore).
    pose proof (score_project _ _ _ Hscore) as Hname. cbn [fst] in Hname.
    assert (project' = project) as -> by congruence.
    rewrite (projectKeywords_lookup _ _ _ Hentry' Hentry) in Hscore.
    unfold score in Hscore. cbn [fst snd] in Hscore. rewrite Hcount in Hscore.
    case_bool_decide; [| done]. by injection Hscore as <-.
  - unfold scores. rewrite projectMatches_omap. split.
    + intros Hpos. eexists. rewrite list_elem_of_omap. split.
      * exists (project, keywords). split; [done |].
        unfold score. cbn [fst snd]. rewrite Hcount.
        by rewrite bool_decide_true.
      * done.
    + intros (m & Hm & Hproject). rewrite list_elem_of_omap in Hm.
      destruct Hm as ([project' keywords'] & Hentry' & Hscore).
      pose proof (score_project _ _ _ Hscore) as Hname. cbn [fst] in Hname.
      assert (project' = project) as -> by congruence.
      rewrite (projectKeywords_lookup _ _ _ Hentry' Hentry) in Hscore.
      unfold score in Hscore. cbn [fst snd] in Hscore. rewrite Hcount in Hscore.
      by case_bool_decide.
Qed.

(** A tool result that names two keywords of the first project and every
    keyword of the second, in mixed case; and a short one. *)
Definition sample_result : string :=
  "The ARIAS and Bianchi notes mention the ChittyOS MCP server and its canon; nothing else of interest is in this output.".

Definition short_result : string := "chittyos mcp server canon".

Lemma count_of_sample (toolResult project : string) (keywords : list string) :
  (project, keywords) ∈ projectKeywords →
  count_of (occurs_ignoring_case toolResult) keywords
    (matchCount (toLowerCase toolResult) keywords).
Proof. intros Hentry. apply count_of_exists, (keyword_test _ project), Hentry. Qed.

Lemma C3_witness :
  let scores := projectMatches (toLowerCase sample_result) in
  (100 < String.length sample_result → resultMatches sample_result = Some scores) ∧
  (∀ m, m ∈ scores → projectMatch.project m = "Arias-v-Bianchi" →
     projectMatch.matches m = 2 ∧
     projectMatch.confidence m = PrimFloat.div (Number 2) (Number 6)) ∧
  (0 < 2 ↔ ∃ m, m ∈ scores ∧ projectMatch.project m = "Arias-v-Bianchi").
Proof.
  apply (C3_confidence_is_matched_over_total sample_result "Arias-v-Bianchi"
           ["arias"; "bianchi"; "legal"; "court"; "evidence"; "motion"] 2).
  - apply list_elem_of_here.
  - assert (2 = matchCount (toLowerCase sample_result)
                  ["arias"; "bianchi"; "legal"; "court"; "evidence"; "motion"])
      as -> by (vm_compute; reflexivity).
    apply (count_of_sample _ "Arias-v-Bianchi"), list_elem_of_here.
Defined.









End ScoringFacts.

(** ** The post-tool hook: statistics *)

Module StatsFacts.
Import Sys SysFacts Js PostToolHook.

#[local] Opaque Number.

(** The pointer [postToolAnalysis] reads. *)
Definition currentProject (w : world) : string :=
  match current_project w with
  | Some content => trim content
  | None => "none"
  end.

(** The statistics object the hook starts from. *)
Definition loaded_stats (w : world) : gmap string projectStats.t :=
  match project_stats w with
  | Some (Document stats) => stats
  | _ => ∅
  end.

(** The file the project suggestions go to. *)
Definition suggestions_file (w : world) : option (list suggestionData.t) :=
  project_suggestions <$> logs w.

(** The score the hook turns into a suggestion, if any (lines 286-288). *)
Definition suggestion_for (toolResult current : string) : option projectMatch.t :=
  match resultMatches toolResult with
  | Some projectMatches =>
      match strongMatches projectMatches with
      | suggestion :: _ =>
          if bool_decide (projectMatch.project suggestion ≠ current)
          then Some suggestion
          else None
      | [] => None
      end
  | None => None
  end.

(** The line appended for it (lines 297-304). *)
Definition suggestion_entry (p : process) (current timestamp : string)
    (suggestion : projectMatch.t) : suggestionData.t :=
  {| suggestionData.timestamp := timestamp;
     suggestionData.current_project := current;
     suggestionData.suggested_project := projectMatch.project suggestion;
     suggestionData.confidence := projectMatch.confidence suggestion;
     suggestionData.trigger := "post_tool_result_analysis";
     suggestionData.tool := env_value (env p !! "CLAUDE_TOOL_NAME") |}.

(** The line of the activity log (lines 244-252). *)
Definition activity_entry (p : process) (toolResult : string) (w : world)
    : activityLog.t :=
  {| activityLog.timestamp := clock w (ticks w);
     activityLog.session_id := env_value (env p !! "CLAUDE_SESSION_ID");
     activityLog.tool := env_value (env p !! "CLAUDE_TOOL_NAME");
     activityLog.agent := env_value (env p !! "CLAUDE_AGENT_NAME");
     activityLog.project := currentProject w;
     activityLog.working_directory := cwd p;
     activityLog.result_size := String.length toolResult |}.

(** The world once the activity line is appended. *)
Definition after_activity (p : process) (toolResult : string) (w : world)
    (d : logs_dir) : world :=
  set_logs
    (Some {| project_activity := project_activity d ++ [activity_entry p toolResult w];
             project_suggestions := project_suggestions d |})
    (set_ticks (S (ticks w)) w).

(** The suggestion lines one run appends. *)
Definition new_suggestions (p : process) (toolResult : string) (w : world)
    : list suggestionData.t :=
  match suggestion_for toolResult (currentProject w) with
  | Some suggestion =>
      [suggestion_entry p (currentProject w) (clock w (S (ticks w))) suggestion]
  | None => []
  end.

(** The world once the result is analysed. *)
Definition after_analysis (p : process) (toolResult : string) (w : world)
    (d : logs_dir) : world :=
  match suggestion_for toolResult (currentProject w) with
  | Some suggestion =>
      set_logs
        (Some {| project_activity :=
                   project_activity d ++ [activity_entry p toolResult w];
                 project_suggestions :=
                   project_suggestions d ++ new_suggestions p toolResult w |})
        (set_ticks (S (S (ticks w))) (after_activity p toolResult w d))
  | None => after_activity p toolResult w d
  end.

(** A hook invocation: the pointer names the first project, the log
    directory exists, the statistics hold one earlier use. *)
Definition hook_process : process :=
  {| cwd := "/work/arias";
     env := {[ "CLAUDE_TOOL_NAME" := "Read"; "CLAUDE_AGENT_NAME" := "main" ]} |}.

Definition hook_world : world :=
  {| projects := ∅;
     current_project := Some "Arias-v-Bianchi
";
     logs := Some {| project_activity := []; project_suggestions := [] |};
     project_stats :=
       Some (Document
               {[ "Arias-v-Bianchi" :=
                    {| projectStats.tool_uses := 1;
                       projectStats.last_used := Some "2025-01-01T00:00:00.000Z";
                       projectStats.directories := Some ["/work/arias"];
                       projectStats.agents_used := Some [JsString "main"] |} ]});
     clock := λ n, if bool_decide (n = 0) then "2025-01-02T00:00:00.000Z"
                   else "2025-01-02T00:00:01.000Z";
     ticks := 0 |}.

(** The same with no project selected. *)
Definition idle_hook_world : world :=
  {| projects := ∅;
     current_project := None;
     logs := Some {| project_activity := []; project_suggestions := [] |};
     project_stats := None;
     clock := λ n, if bool_decide (n = 0) then "2025-01-02T00:00:00.000Z"
                   else "2025-01-02T00:00:01.000Z";
     ticks := 0 |}.

Section Sets.
Context `{EqDecision A}.

Lemma foldl_Set_add (items acc : list A) :
  NoDup acc →
  NoDup (foldl Set_add acc items) ∧
  ∀ x, x ∈ foldl Set_add acc items ↔ x ∈ acc ∨ x ∈ items.
Proof.
  revert acc. induction items as [| item items IH]; intros acc Hacc; cbn [foldl].
  - split; [done |]. intros x. rewrite elem_of_nil. tauto.
  - unfold Set_add at 2 4. case_decide as Hitem.
    + destruct (IH acc Hacc) as [Hnodup Hin]. split; [done |].
      intros x. rewrite Hin, elem_of_cons. split; [tauto |].
      intros [? | [-> | ?]]; tauto.
    + assert (NoDup (acc ++ [item])) as Hacc'.
      { apply NoDup_app. split; [done |]. split; [| apply NoDup_singleton].
        intros x Hx ->%list_elem_of_singleton. done. }
      destruct (IH _ Hacc') as [Hnodup Hin]. split; [done |].
      intros x. rewrite Hin, elem_of_app, list_elem_of_singleton, elem_of_cons. tauto.
Qed.

Lemma new_Set_NoDup (items : list A) : NoDup (new_Set items).
Proof. apply foldl_Set_add, NoDup_nil_2. Qed.

Lemma elem_of_new_Set (items : list A) (x : A) : x ∈ new_Set items ↔ x ∈ items.
Proof.
  unfold new_Set.
  rewrite (proj2 (foldl_Set_add items [] (NoDup_nil_2)) x), elem_of_nil. tauto.
Qed.

Lemma union_in_NoDup (previous : option (list A)) (item : A) :
  NoDup (union_in previous item).
Proof. apply new_Set_NoDup. Qed.

Lemma elem_of_union_in (previous : option (list A)) (item x : A) :
  x ∈ union_in previous item ↔ x ∈ default [] previous ∨ x = item.
Proof.
  unfold union_in. by rewrite elem_of_new_Set, elem_of_app, list_elem_of_singleton.
Qed.

End Sets.

(** The copy loop leaves the world alone. *)
Lemma sets_to_arrays_world (stats : gmap string projectStats.t) (w : world) :
  ∃ r, sets_to_arrays stats w = (w, r).
Proof.
  unfold sets_to_arrays.
  induction (map_to_list stats) as [| [k e] l IH]; cbn [foldr fst snd].
  - by eexists.
  - mrun. unfold Array_from at 1.
    destruct (projectStats.directories e); mrun; [| by eexists].
    unfold Array_from at 1.
    destruct (projectStats.agents_used e); mrun; [| by eexists].
    destruct IH as [[done | err] ->]; mrun; by eexists.
Qed.

(** When it completes, it yields the object it was given. *)
Lemma sets_to_arrays_returns (stats stats' : gmap string projectStats.t) (w w' : world) :
  sets_to_arrays stats w = (w', Return stats') → w' = w ∧ stats' = stats.
Proof.
  unfold sets_to_arrays.
  assert (∀ kv, kv ∈ map_to_list stats → stats !! kv.1 = Some kv.2) as Hin.
  { intros [k e] Hkv. by apply elem_of_map_to_list. }
  revert stats' w' Hin.
  induction (map_to_list stats) as [| [k e] l IH]; intros stats' w' Hin;
    cbn [foldr fst snd].
  - mrun. by intros [= <- <-].
  - mrun. unfold Array_from at 1.
    destruct (projectStats.directories e) as [dirs |] eqn:Hdirs; mrun; [| done].
    unfold Array_from at 1.
    destruct (projectStats.agents_used e) as [agents |] eqn:Hagents; mrun; [| done].
    match goal with
    | |- context [foldr ?f ?z l w] =>
        destruct (foldr f z l w) as [w1 [copied | err]] eqn:Hrest
    end; mrun; [| done].
    intros [= <- <-].
    destruct (IH copied w1) as [-> ->]; [| done |].
    { intros kv Hkv. by apply Hin, list_elem_of_further. }
    split; [done |].
    pose proof (Hin (k, e) (list_elem_of_here _ _)) as Hk. cbn [fst snd] in Hk.
    apply insert_id. rewrite Hk.
    destruct e; cbn in *; by subst.
Qed.

Lemma updateStats_logs (p : process) (project : string) (w : world) :
  logs (updateStats p project w).1 = logs w.
Proof.
  unfold updateStats, load_stats, writeFileSync_stats. mrun.
  match goal with
  | |- context [sets_to_arrays ?s ?w0] =>
      destruct (sets_to_arrays_world s w0) as [[done | err] ->]
  end; by mrun.
Qed.

Lemma analyseResult_run (p : process) (toolResult current : string) (w : world)
    (d : logs_dir) :
  logs w = Some d →
  analyseResult p toolResult current w =
    match suggestion_for toolResult current with
    | Some suggestion =>
        (set_logs
           (Some {| project_activity := project_activity d;
                    project_suggestions :=
                      project_suggestions d ++
                      [suggestion_entry p current (clock w (ticks w)) suggestion] |})
           (set_ticks (S (ticks w)) w),
         Return tt)
    | None => (w, Return tt)
    end.
Proof.
  intros Hlogs. unfold analyseResult, suggestion_for.
  destruct (resultMatches toolResult) as [matches |]; [| done].
  destruct (strongMatches matches) as [| suggestion rest]; [done |].
  case_bool_decide; [| done].
  unfold appendFileSync_suggestions. mrun. cbn [logs set_ticks]. rewrite Hlogs. by mrun.
Qed.

(** The run of the [try] block when the log directory exists. *)
Lemma postToolAnalysis_try_run (p : process) (toolResult : string) (w : world)
    (d : logs_dir) :
  logs w = Some d →
  postToolAnalysis_try p toolResult w =
    updateStats p (currentProject w) (after_analysis p toolResult w d).
Proof.
  intros Hlogs.
  unfold postToolAnalysis_try, read_currentProject, appendFileSync_activity.
  mrun. cbn [logs set_ticks]. rewrite Hlogs. mrun.
  fold (currentProject w).
  change (set_logs _ (set_ticks (S (ticks w)) w))
    with (after_activity p toolResult w d).
  rewrite (analyseResult_run p toolResult (currentProject w)
             (after_activity p toolResult w d) _ eq_refl).
  unfold after_analysis, new_suggestions.
  destruct (suggestion_for toolResult (currentProject w)); reflexivity.
Qed.

Lemma postToolAnalysis_try_no_logs (p : process) (toolResult : string) (w : world) :
  logs w = None →
  ∃ w' e, postToolAnalysis_try p toolResult w = (w', Throw e).
Proof.
  intros Hlogs.
  unfold postToolAnalysis_try, read_currentProject, appendFileSync_activity.
  mrun. cbn [logs set_ticks]. rewrite Hlogs. mrun. by eexists _, _.
Qed.

Lemma after_analysis_facts (p : process) (toolResult : string) (w : world)
    (d : logs_dir) :
  let w1 := after_analysis p toolResult w d in
  project_stats w1 = project_stats w ∧ clock w1 = clock w ∧
  current_project w1 = current_project w ∧ projects w1 = projects w ∧
  ticks w < ticks w1.
Proof.
  unfold after_analysis.
  destruct (suggestion_for toolResult (currentProject w)); cbn; auto with lia.
Qed.

(** The statistics step: it fails in the copy loop or writes the object
    with the updated entry. *)
Lemma updateStats_run (p : process) (project : string) (w : world) :
  let entry := update_entry (loaded_stats w !! project) (clock w (ticks w)) (cwd p)
                 (env_value (env p !! "CLAUDE_AGENT_NAME")) in
  updateStats p project w =
    (set_project_stats
       (Some (Document (written_entry <$> <[project := entry]> (loaded_stats w))))
       (set_ticks (S (ticks w)) w), Return tt) ∨
  ∃ e, updateStats p project w = (set_ticks (S (ticks w)) w, Throw e).
Proof.
  intros entry. unfold updateStats, load_stats, writeFileSync_stats. mrun.
  cbn [project_stats set_ticks clock ticks]. fold (loaded_stats w). fold entry.
  destruct (sets_to_arrays (<[project := entry]> (loaded_stats w))
              (set_ticks (S (ticks w)) w)) as [w2 [copied | err]] eqn:Hcopy; mrun.
  - apply sets_to_arrays_returns in Hcopy as [-> ->]. by left.
  - destruct (sets_to_arrays_world (<[project := entry]> (loaded_stats w))
                (set_ticks (S (ticks w)) w)) as [r Hr].
    rewrite Hr in Hcopy. injection Hcopy as <- _. right. by eexists.
Qed.

(** The object handed to [JSON.stringify] when the [try] block completes:
    the entry of the current project has [tool_uses] one above the previous
    value (0 for a new entry), [last_used] set to the clock reading just
    taken, and [directories] and [agents_used] without duplicates, holding
    exactly the previous elements, the working directory and the agent; the
    other entries are as they were.  The file holds [written_entry] of each
    entry. *)
Lemma statistics_object_update (p : process) (toolResult : string) (w w' : world) :
  postToolAnalysis_try p toolResult w = (w', Return tt) →
  let previous := default new_entry (loaded_stats w !! currentProject w) in
  let agent := env_value (env p !! "CLAUDE_AGENT_NAME") in
  ∃ stats entry directories agents_used,
    project_stats w' = Some (Document (written_entry <$> stats)) ∧
    stats !! currentProject w = Some entry ∧
    (∀ other, other ≠ currentProject w → stats !! other = loaded_stats w !! other) ∧
    projectStats.tool_uses entry = projectStats.tool_uses previous + 1 ∧
    ticks w < ticks w' ∧
    projectStats.last_used entry = Some (clock w (pred (ticks w'))) ∧
    projectStats.directories entry = Some directories ∧
    projectStats.agents_used entry = Some agents_used ∧
    NoDup directories ∧
    NoDup agents_used ∧
    (∀ dir, dir ∈ directories ↔
            dir ∈ default [] (projectStats.directories previous) ∨ dir = cwd p) ∧
    (∀ a, a ∈ agents_used ↔
          a ∈ default [] (projectStats.agents_used previous) ∨ a = agent) ∧
    (JsUndefined ∉ agents_used → written_entry entry = entry).
Proof.
  intros Hrun previous agent.
  destruct (logs w) as [d |] eqn:Hlogs; cycle 1.
  { destruct (postToolAnalysis_try_no_logs p toolResult w Hlogs) as (w0 & e & Hthrow).
    congruence. }
  rewrite (postToolAnalysis_try_run p toolResult w d Hlogs) in Hrun.
  destruct (after_analysis_facts p toolResult w d)
    as (Hstats1 & Hclock1 & Hcurrent1 & _ & Hticks1).
  set (w1 := after_analysis p toolResult w d) in *.
  assert (loaded_stats w1 = loaded_stats w) as Hloaded
    by (unfold loaded_stats; by rewrite Hstats1).
  destruct (updateStats_run p (currentProject w) w1) as [Hok | [e Hthrow]];
    [| congruence].
  rewrite Hok in Hrun. injection Hrun as <-. rewrite Hloaded, Hclock1.
  set (entry := update_entry (loaded_stats w !! currentProject w) (clock w (ticks w1))
                  (cwd p) agent).
  eexists _, entry, _, _.
  split; [reflexivity |].
  split; [apply lookup_insert_eq |].
  split; [intros other Hother; by apply lookup_insert_ne |].
  split; [unfold entry, update_entry; cbn; fold previous; lia |].
  split; [cbn; lia |].
  split; [reflexivity |].
  split; [reflexivity |]. split; [reflexivity |].
  split; [apply union_in_NoDup |]. split; [apply union_in_NoDup |].
  split; [intros dir; apply elem_of_union_in |].
  split; [intros a; apply elem_of_union_in |].
  intros Hundefined. unfold written_entry, entry, update_entry. cbn. do 2 f_equal.
  apply list_eq. intros i. rewrite list_lookup_fmap.
  destruct (union_in _ agent !! i) as [a |] eqn:Ha; [| done]. cbn.
  destruct a; try done. destruct Hundefined.
  by eapply list_elem_of_lookup_2.
Qed.

(** The hook process when [CLAUDE_AGENT_NAME] is not in the environment. *)
Definition unset_agent_process : process :=
  {| cwd := "/work/arias"; env := {[ "CLAUDE_TOOL_NAME" := "Read" ]} |}.

(** The [agents_used] array of a project in the statistics file. *)
Definition persisted_agents (w : world) (project : string) : option (list jsval) :=
  loaded_stats w !! project ≫= projectStats.agents_used.

(** C10.  With [CLAUDE_AGENT_NAME] unset, two runs in a row from a world
    without a statistics file both complete without error; the first
    persists [agents_used] of the current project as [[null]], the second as
    [[null, null]]: the array in the statistics file is not deduplicated. *)
Theorem C10_second_run_persists_null_twice :
  let first :=
    postToolAnalysis_try unset_agent_process ScoringFacts.short_result idle_hook_world in
  let second :=
    postToolAnalysis_try unset_agent_process ScoringFacts.short_result first.1 in
  first.2 = Return tt ∧
  persisted_agents first.1 (currentProject idle_hook_world) = Some [JsNull] ∧
  second.2 = Return tt ∧
  persisted_agents second.1 (currentProject idle_hook_world) = Some [JsNull; JsNull] ∧
  ¬ NoDup [JsNull; JsNull].
Proof.
  intros first second.
  split; [vm_compute; reflexivity |].
  split; [vm_compute; reflexivity |].
  split; [vm_compute; reflexivity |].
  split; [vm_compute; reflexivity |].
  intros Hnodup. apply NoDup_cons in Hnodup as [Hin _].
  apply Hin, list_elem_of_here.
Qed.

(** What [postToolAnalysis] leaves in the suggestions file. *)
Lemma postToolAnalysis_suggestions (p : process) (toolResult : string) (w : world)
    (before : list suggestionData.t) :
  suggestions_file w = Some before →
  suggestions_file (postToolAnalysis p toolResult w).1 =
    Some (before ++ new_suggestions p toolResult w).
Proof.
  unfold suggestions_file. intros Hbefore.
  destruct (logs w) as [d |] eqn:Hlogs; [| done].
  injection Hbefore as <-.
  unfold postToolAnalysis. rewrite try_catch_run.
  rewrite (postToolAnalysis_try_run p toolResult w d Hlogs).
  pose proof (updateStats_logs p (currentProject w) (after_analysis p toolResult w d))
    as Hkept.
  destruct (updateStats p (currentProject w) (after_analysis p toolResult w d))
    as [w' [[] | e]]; cbn [fst] in Hkept |- *; rewrite ?ret_run; cbn [fst];
    rewrite Hkept; unfold after_analysis, new_suggestions;
    destruct (suggestion_for toolResult (currentProject w)); cbn;
    by rewrite ?app_nil_r.
Qed.

Lemma postToolAnalysis_no_logs (p : process) (toolResult : string) (w : world) :
  logs w = None →
  postToolAnalysis p toolResult w = (set_ticks (S (ticks w)) w, Return tt).
Proof.
  intros Hlogs.
  unfold postToolAnalysis, postToolAnalysis_try, read_currentProject,
    appendFileSync_activity.
  mrun. cbn [logs set_ticks]. rewrite Hlogs. by mrun.
Qed.




End StatsFacts.

(** ** The post-tool hook: suggestions *)

Module SuggestionFacts.
Import Sys SysFacts Js JsFacts PostToolHook ScoringFacts StatsFacts.

#[local] Opaque Number.

(** [n] matched keywords out of [total], as a rational. *)
Definition score_of (n total : nat) : Q := Z.of_nat n # Pos.of_nat total.

(** Row [i] of the table is [project], and it scores [q] on the string. *)
Definition scores_at (toolResult : string) (i : nat) (project : string) (q : Q) : Prop :=
  ∃ keywords n,
    projectKeywords !! i = Some (project, keywords) ∧
    count_of (occurs_ignoring_case toolResult) keywords n ∧
    q = score_of n (length keywords).

(** The top-scoring project, the first-declared one on a tie. *)
Definition top_scoring (toolResult project : string) (q : Q) : Prop :=
  ∃ i,
    scores_at toolResult i project q ∧
    ∀ j other q',
      scores_at toolResult j other q' → (q' <= q)%Q ∧ (j < i → (q' < q)%Q).

(** The first project of the table whose score exceeds 0.3. *)
Definition first_above_threshold (toolResult project : string) : Prop :=
  ∃ i q,
    scores_at toolResult i project q ∧ (3 # 10 < q)%Q ∧
    ∀ j other q', j < i → scores_at toolResult j other q' → (q' <= 3 # 10)%Q.

(** The run appends one line to the suggestions file, naming [suggested]. *)
Definition suggestion_logged (p : process) (toolResult : string) (w : world)
    (suggested : string) : Prop :=
  ∃ before entry,
    suggestions_file w = Some before ∧
    suggestions_file (postToolAnalysis p toolResult w).1 = Some (before ++ [entry]) ∧
    suggestionData.suggested_project entry = suggested.

(** The claim as the specification words it: a suggestion is logged exactly
    when the top score exceeds 0.3 and the top-scoring project is not the
    current one, and it names that project. *)
Definition suggests_top_scoring (p : process) (toolResult : string) (w : world) : Prop :=
  ∀ suggested,
    suggestion_logged p toolResult w suggested ↔
    ∃ q, top_scoring toolResult suggested q ∧ (3 # 10 < q)%Q ∧
         suggested ≠ currentProject w.

(** A row's score once the threshold is applied. *)
Definition strong_score (lowerResult : string) (entry : string * list string)
    : option projectMatch.t :=
  match score lowerResult entry with
  | Some m => if is_strong m then Some m else None
  | None => None
  end.

(** The comparison with 0.3 in binary64 agrees with the rationals on every
    quotient the table can produce. *)
Lemma threshold_test (c n : nat) :
  c ≤ n → 1 ≤ n ≤ 6 →
  PrimFloat.ltb threshold (PrimFloat.div (Number c) (Number n)) =
    bool_decide (3 * n < 10 * c).
Proof.
  intros Hc [Hn1 Hn6].
  destruct n as [|[|[|[|[|[|[|n]]]]]]]; try (exfalso; lia);
    destruct c as [|[|[|[|[|[|[|c]]]]]]]; try (exfalso; lia);
    vm_compute; reflexivity.
Qed.

Lemma score_of_threshold (c n : nat) :
  1 ≤ n → (3 # 10 < score_of c n)%Q ↔ 3 * n < 10 * c.
Proof.
  intros Hn. unfold Qlt, score_of. cbn [Qnum Qden].
  destruct n as [| n]; [lia |].
  rewrite <- Pos.of_nat_succ, Zpos_P_of_succ_nat. lia.
Qed.

Lemma count_of_le {A} (P : A → Prop) (l : list A) (n : nat) :
  count_of P l n → n ≤ length l.
Proof. induction 1; cbn [length]; lia. Qed.

Lemma strongMatches_omap {A} (f : A → option projectMatch.t) (l : list A) :
  strongMatches (omap f l) =
    omap (λ x, match f x with
               | Some m => if is_strong m then Some m else None
               | None => None
               end) l.
Proof.
  unfold strongMatches. induction l as [| x l IH]; [done |].
  cbn [omap list_omap]. destruct (f x) as [m |]; [| done].
  destruct (is_strong m) eqn:Hm.
  - rewrite filter_cons_True by (by rewrite Hm). by rewrite IH.
  - rewrite filter_cons_False by (rewrite Hm; exact id). done.
Qed.

Lemma head_omap {A B} (f : A → option B) (l : list A) (y : B) :
  head (omap f l) = Some y ↔
  ∃ i x, l !! i = Some x ∧ f x = Some y ∧
         ∀ j x', j < i → l !! j = Some x' → f x' = None.
Proof.
  induction l as [| a l IH]; cbn [omap list_omap].
  - split; [done |]. by intros (i & x & Hx & _).
  - destruct (f a) as [z |] eqn:Ha.
    + cbn [head]. split.
      * intros [= ->]. exists 0, a. split; [done |]. split; [done |]. lia.
      * intros ([| i] & x & Hx & Hy & Hfirst).
        -- cbn in Hx. congruence.
        -- specialize (Hfirst 0 a ltac:(lia) eq_refl). congruence.
    + rewrite IH. split.
      * intros (i & x & Hx & Hy & Hfirst). exists (S i), x.
        split; [done |]. split; [done |].
        intros [| j] x' Hj Hx'; [cbn in Hx'; congruence |].
        apply (Hfirst j); [lia | done].
      * intros ([| i] & x & Hx & Hy & Hfirst).
        -- cbn in Hx. congruence.
        -- exists i, x. split; [done |]. split; [done |].
           intros j x' Hj Hx'. apply (Hfirst (S j)); [lia | done].
Qed.

(** A row's strong score, read off the number of its keywords that occur. *)
Lemma strong_score_row (toolResult project : string) (keywords : list string)
    (i n : nat) :
  projectKeywords !! i = Some (project, keywords) →
  count_of (occurs_ignoring_case toolResult) keywords n →
  strong_score (toLowerCase toolResult) (project, keywords) =
    if bool_decide (3 * length keywords < 10 * n)
    then Some {| projectMatch.project := project;
                 projectMatch.matches := n;
                 projectMatch.confidence := confidence n keywords |}
    else None.
Proof.
  intros Hrow Hn. apply list_elem_of_lookup_2 in Hrow.
  pose proof (matchCount_count _ _ _ _ Hrow Hn) as Hcount.
  pose proof (count_of_le _ _ _ Hn) as Hle.
  pose proof (proj1 (Forall_forall _ _) projectKeywords_sizes _ Hrow) as Hsize.
  cbn [snd] in Hsize.
  unfold strong_score, score. cbn [fst snd]. rewrite Hcount.
  case_bool_decide as Hpos.
  - unfold is_strong, confidence. cbn [projectMatch.confidence].
    rewrite (threshold_test n (length keywords) Hle Hsize).
    by case_bool_decide.
  - by rewrite bool_decide_false by lia.
Qed.

Lemma scores_at_functional (toolResult : string) (i : nat) (project project' : string)
    (q q' : Q) :
  scores_at toolResult i project q → scores_at toolResult i project' q' →
  project = project' ∧ q = q'.
Proof.
  intros (keywords & n & Hrow & Hn & ->) (keywords' & n' & Hrow' & Hn' & ->).
  rewrite Hrow in Hrow'. injection Hrow' as <- <-.
  by rewrite (count_of_functional _ _ _ _ Hn Hn').
Qed.

(** The score of a row on a given string. *)
Lemma scores_at_row (toolResult project : string) (keywords : list string) (i : nat) :
  projectKeywords !! i = Some (project, keywords) →
  scores_at toolResult i project
    (score_of (matchCount (toLowerCase toolResult) keywords) (length keywords)).
Proof.
  intros Hrow. exists keywords, (matchCount (toLowerCase toolResult) keywords).
  split; [done |]. split; [| done].
  apply (count_of_sample _ project). by eapply list_elem_of_lookup_2.
Qed.

(** The head of the strong matches is the first row above the threshold. *)
Lemma first_strong_match (toolResult suggested : string) :
  (∃ m, head (strongMatches (projectMatches (toLowerCase toolResult))) = Some m ∧
        projectMatch.project m = suggested) ↔
  first_above_threshold toolResult suggested.
Proof.
  rewrite projectMatches_omap, strongMatches_omap.
  fold (strong_score (toLowerCase toolResult)).
  split.
  - intros (m & Hhead & Hname). apply head_omap in Hhead.
    destruct Hhead as (i & [project keywords] & Hrow & Hstrong & Hfirst).
    pose proof (scores_at_row toolResult project keywords i Hrow) as Hscore.
    destruct Hscore as (keywords0 & n & Hrow0 & Hn & Hq).
    rewrite Hrow in Hrow0. injection Hrow0 as <-.
    pose proof (proj1 (Forall_forall _ _) projectKeywords_sizes _
                  (list_elem_of_lookup_2 _ _ _ Hrow)) as Hsize.
    cbn [snd] in Hsize.
    rewrite (strong_score_row _ _ _ i n Hrow Hn) in Hstrong.
    case_bool_decide as Habove; [| done]. injection Hstrong as <-.
    cbn [projectMatch.project] in Hname. subst suggested.
    exists i, (score_of n (length keywords)).
    split; [by exists keywords, n |].
    split; [apply score_of_threshold; lia |].
    intros j other q' Hj (keywords' & n' & Hrow' & Hn' & ->).
    pose proof (Hfirst j _ Hj Hrow') as Hnone.
    rewrite (strong_score_row _ _ _ j n' Hrow' Hn') in Hnone.
    case_bool_decide as Hbelow; [done |].
    pose proof (proj1 (Forall_forall _ _) projectKeywords_sizes _
                  (list_elem_of_lookup_2 _ _ _ Hrow')) as Hsize'.
    cbn [snd] in Hsize'.
    apply Qnot_lt_le. rewrite score_of_threshold by lia. done.
  - intros (i & q & (keywords & n & Hrow & Hn & ->) & Habove & Hfirst).
    pose proof (proj1 (Forall_forall _ _) projectKeywords_sizes _
                  (list_elem_of_lookup_2 _ _ _ Hrow)) as Hsize.
    cbn [snd] in Hsize.
    apply score_of_threshold in Habove; [| lia].
    exists {| projectMatch.project := suggested;
              projectMatch.matches := n;
              projectMatch.confidence := confidence n keywords |}.
    split; [| reflexivity]. apply head_omap.
    exists i, (suggested, keywords). split; [done |]. split.
    + rewrite (strong_score_row _ _ _ i n Hrow Hn).
      by rewrite bool_decide_true.
    + intros j [other keywords'] Hj Hrow'.
      pose proof (scores_at_row toolResult other keywords' j Hrow') as Hscore.
      pose proof (Hfirst j other _ Hj Hscore) as Hbelow.
      destruct Hscore as (keywords0 & n' & Hrow0 & Hn' & Hq).
      rewrite Hrow' in Hrow0. injection Hrow0 as <-.
      pose proof (proj1 (Forall_forall _ _) projectKeywords_sizes _
                    (list_elem_of_lookup_2 _ _ _ Hrow')) as Hsize'.
      cbn [snd] in Hsize'.
      rewrite (strong_score_row _ _ _ j n' Hrow' Hn').
      rewrite bool_decide_false; [done |].
      rewrite <- score_of_threshold by lia. apply Qle_not_lt.
      by rewrite <- Hq.
Qed.

Lemma suggestion_for_Some (toolResult current : string) (m : projectMatch.t) :
  suggestion_for toolResult current = Some m ↔
  100 < String.length toolResult ∧
  head (strongMatches (projectMatches (toLowerCase toolResult))) = Some m ∧
  projectMatch.project m ≠ current.
Proof.
  unfold suggestion_for, resultMatches.
  case_bool_decide as Hlong; [| split; [done | intros [? _]; lia]].
  destruct (strongMatches (projectMatches (toLowerCase toolResult)))
    as [| first rest]; cbn [head].
  - split; [done | by intros (_ & ? & _)].
  - case_bool_decide as Hother.
    + split; [by intros [= <-] | by intros (_ & [= <-] & _)].
    + split; [done | intros (_ & [= <-] & ?); done].
Qed.

Lemma suggestion_logged_iff (p : process) (toolResult : string) (w : world)
    (before : list suggestionData.t) (suggested : string) :
  suggestions_file w = Some before →
  suggestion_logged p toolResult w suggested ↔
  ∃ m, suggestion_for toolResult (currentProject w) = Some m ∧
       projectMatch.project m = suggested.
Proof.
  intros Hbefore. unfold suggestion_logged.
  rewrite (postToolAnalysis_suggestions p toolResult w before Hbefore).
  unfold new_suggestions. split.
  - intros (before' & entry & Hbefore' & Hafter & Hname).
    rewrite Hbefore in Hbefore'. injection Hbefore' as <-.
    injection Hafter as Hafter. apply app_inv_head in Hafter.
    destruct (suggestion_for toolResult (currentProject w)) as [m |]; [| done].
    injection Hafter as <-. by exists m.
  - intros (m & -> & Hname). by eexists before, _.
Qed.

(** C2, as amended.  When the suggestions file can be written, the hook
    appends a suggestion naming a project exactly when the tool result is
    longer than 100 characters, that project is the first in table order
    whose score exceeds 0.3, and it is not the current project. *)
Theorem C2_suggests_first_above_threshold (p : process) (toolResult : string)
    (w : world) (before : list suggestionData.t) (suggested : string) :
  suggestions_file w = Some before →
  suggestion_logged p toolResult w suggested ↔
  100 < String.length toolResult ∧
  first_above_threshold toolResult suggested ∧
  suggested ≠ currentProject w.
Proof.
  intros Hbefore.
  rewrite (suggestion_logged_iff p toolResult w before suggested Hbefore).
  rewrite <- first_strong_match. split.
  - intros (m & Hfor & Hname). apply suggestion_for_Some in Hfor
      as (Hlong & Hhead & Hother).
    split; [done |]. split; [by exists m | congruence].
  - intros (Hlong & (m & Hhead & Hname) & Hother).
    exists m. split; [| done]. apply suggestion_for_Some.
    split; [done |]. split; [done | congruence].
Qed.

Lemma C2_witness :
  suggestion_logged hook_process sample_result idle_hook_world "Arias-v-Bianchi" ↔
  100 < String.length sample_result ∧
  first_above_threshold sample_result "Arias-v-Bianchi" ∧
  "Arias-v-Bianchi" ≠ currentProject idle_hook_world.
Proof.
  apply (C2_suggests_first_above_threshold hook_process sample_result idle_hook_world []).
  reflexivity.
Defined.

(** The rows of the table, one index at a time, on a given string. *)
Ltac each_row Hscore :=
  match type of Hscore with
  | scores_at ?t ?j _ _ =>
      first
        [ let Hrow := fresh "Hrow" in
          pose proof (scores_at_row t _ _ j eq_refl) as Hrow;
          destruct (scores_at_functional _ _ _ _ _ _ Hscore Hrow) as [-> ->];
          clear Hrow Hscore
        | destruct Hscore as (? & ? & Hscore & _); discriminate Hscore ]
  end.

Ltac closed_Qle := apply Qle_bool_iff; vm_compute; reflexivity.
Ltac closed_Qlt := apply Qlt_alt; vm_compute; reflexivity.

(** On both sample strings the second project has the top score, 1. *)
Lemma top_scoring_short_result :
  top_scoring short_result "ChittyOS-Core" (score_of 4 4).
Proof.
  exists 1. split; [apply (scores_at_row short_result _ _ 1 eq_refl) |].
  intros j other q' Hscore.
  destruct j as [|[|[|[|[|j]]]]]; each_row Hscore;
    (split; [closed_Qle | intros Hj; first [lia | closed_Qlt]]).
Qed.

Lemma top_scoring_sample_result :
  top_scoring sample_result "ChittyOS-Core" (score_of 4 4).
Proof.
  exists 1. split; [apply (scores_at_row sample_result _ _ 1 eq_refl) |].
  intros j other q' Hscore.
  destruct j as [|[|[|[|[|j]]]]]; each_row Hscore;
    (split; [closed_Qle | intros Hj; first [lia | closed_Qlt]]).
Qed.

(** C2 fails as stated.  A short result whose top score is 1 for a project
    other than the current one is not suggested; and on a long result whose
    top-scoring project differs from the current one, nothing is suggested
    when the first project above the threshold is the current one. *)
Lemma C2_counterexample :
  ¬ suggests_top_scoring hook_process short_result idle_hook_world ∧
  ¬ suggests_top_scoring hook_process sample_result hook_world.
Proof.
  split; intros Hclaim.
  - destruct (Hclaim "ChittyOS-Core") as [_ Hlogged].
    destruct Hlogged as (before & entry & Hbefore & Hafter & _).
    { exists (score_of 4 4). split; [exact top_scoring_short_result |].
      split; [closed_Qlt | vm_compute; discriminate]. }
    rewrite (postToolAnalysis_suggestions hook_process short_result idle_hook_world []
               eq_refl) in Hafter.
    injection Hbefore as <-. vm_compute in Hafter. discriminate Hafter.
  - destruct (Hclaim "ChittyOS-Core") as [_ Hlogged].
    destruct Hlogged as (before & entry & Hbefore & Hafter & _).
    { exists (score_of 4 4). split; [exact top_scoring_sample_result |].
      split; [closed_Qlt | vm_compute; discriminate]. }
    rewrite (postToolAnalysis_suggestions hook_process sample_result hook_world []
               eq_refl) in Hafter.
    injection Hbefore as <-. vm_compute in Hafter. discriminate Hafter.
Qed.

(** What the hook does on the second string instead: with no project
    selected it suggests the first project, whose score is 1/3. *)
Lemma sample_result_suggestion :
  suggestions_file (postToolAnalysis hook_process sample_result idle_hook_world).1 =
    Some [ {| suggestionData.timestamp := "2025-01-02T00:00:01.000Z";
              suggestionData.current_project := "none";
              suggestionData.suggested_project := "Arias-v-Bianchi";
              suggestionData.confidence := PrimFloat.div (Number 2) (Number 6);
              suggestionData.trigger := "post_tool_result_analysis";
              suggestionData.tool := JsString "Read" |} ].
Proof.
  rewrite (postToolAnalysis_suggestions hook_process sample_result idle_hook_world []
             eq_refl).
  vm_compute. reflexivity.
Qed.

End SuggestionFacts.

(** ** The post-tool hook: further properties *)

Module HookFacts.
Import Sys SysFacts Js JsFacts PostToolHook ScoringFacts StatsFacts SuggestionFacts.

#[local] Opaque Number.

(** Every entry of the statistics holds its two arrays. *)
Definition arrays_present (stats : gmap string projectStats.t) : Prop :=
  ∀ project entry,
    stats !! project = Some entry →
    is_Some (projectStats.directories entry) ∧ is_Some (projectStats.agents_used entry).

(** The string holds white space only. *)
Fixpoint blank (s : string) : bool :=
  match s with
  | EmptyString => true
  | String c s' => is_white_space c && blank s'
  end.

(** The hook run once per tool result, in turn. *)
Fixpoint invocations (p : process) (toolResults : list string) (w : world) : world :=
  match toolResults with
  | [] => w
  | toolResult :: rest => invocations p rest (postToolAnalysis p toolResult w).1
  end.

(** The names every object inherits from [Object.prototype]: [stats[name]]
    finds a value under them in an object without such an entry, which the
    finite map standing for [stats] does not show. *)
Definition inherited (name : string) : bool :=
  bool_decide (name ∈ [ "constructor"; "__proto__"; "hasOwnProperty"; "isPrototypeOf";
                        "propertyIsEnumerable"; "toLocaleString"; "toString";
                        "valueOf"; "__defineGetter__"; "__defineSetter__";
                        "__lookupGetter__"; "__lookupSetter__" ]).

(** The entry of a project, as the hook would find it. *)
Definition entry_of (w : world) (project : string) : projectStats.t :=
  default new_entry (loaded_stats w !! project).

Lemma Array_from_Some {A} (items : list A) (w : world) :
  Array_from (Some items) w = (w, Return items).
Proof. reflexivity. Qed.

Lemma sets_to_arrays_ok (stats : gmap string projectStats.t) (w : world) :
  arrays_present stats → sets_to_arrays stats w = (w, Return stats).
Proof.
  intros Hpresent. unfold sets_to_arrays.
  assert (∀ kv, kv ∈ map_to_list stats → stats !! kv.1 = Some kv.2) as Hin.
  { intros [k e] Hkv. by apply elem_of_map_to_list. }
  induction (map_to_list stats) as [| [k e] l IH]; cbn [foldr fst snd]; [done |].
  pose proof (Hin (k, e) (list_elem_of_here _ _)) as Hk. cbn [fst snd] in Hk.
  destruct (Hpresent k e Hk) as [[dirs Hdirs] [agents Hagents]].
  mrun. rewrite Hdirs, Array_from_Some. mrun. rewrite Hagents, Array_from_Some. mrun.
  rewrite IH by (intros kv Hkv; by apply Hin, list_elem_of_further). mrun.
  do 2 f_equal. apply insert_id. rewrite Hk.
  destruct e; cbn in *; by subst.
Qed.


Lemma update_entry_arrays (previous : option projectStats.t) (now currentDir : string)
    (agent : jsval) :
  is_Some (projectStats.directories (update_entry previous now currentDir agent)) ∧
  is_Some (projectStats.agents_used (update_entry previous now currentDir agent)).
Proof. split; by eexists. Qed.

Lemma arrays_present_insert (stats : gmap string projectStats.t) (project : string)
    (previous : option projectStats.t) (now currentDir : string) (agent : jsval) :
  arrays_present stats →
  arrays_present (<[project := update_entry previous now currentDir agent]> stats).
Proof.
  intros Hpresent k e. destruct (decide (project = k)) as [<- | Hne].
  - rewrite lookup_insert_eq. intros [= <-]. apply update_entry_arrays.
  - rewrite lookup_insert_ne by done. apply Hpresent.
Qed.

Lemma arrays_present_written (stats : gmap string projectStats.t) :
  arrays_present stats → arrays_present (written_entry <$> stats).
Proof.
  intros Hpresent k e. rewrite lookup_fmap.
  destruct (stats !! k) as [e0 |] eqn:Hk; [| done]. intros [= <-].
  destruct (Hpresent k e0 Hk) as [[dirs Hdirs] [agents Hagents]].
  unfold written_entry. cbn. rewrite Hdirs, Hagents. split; by eexists.
Qed.

(** The whole run when the log directory exists and every entry holds its
    arrays. *)
Lemma postToolAnalysis_completes (p : process) (toolResult : string) (w : world)
    (d : logs_dir) :
  logs w = Some d →
  arrays_present (loaded_stats w) →
  let w1 := after_analysis p toolResult w d in
  let entry := update_entry (loaded_stats w !! currentProject w) (clock w (ticks w1))
                 (cwd p) (env_value (env p !! "CLAUDE_AGENT_NAME")) in
  postToolAnalysis_try p toolResult w =
    (set_project_stats
       (Some (Document (written_entry <$> <[currentProject w := entry]> (loaded_stats w))))
       (set_ticks (S (ticks w1)) w1), Return tt).
Proof.
  intros Hlogs Hpresent w1 entry.
  rewrite (postToolAnalysis_try_run p toolResult w d Hlogs). fold w1.
  destruct (after_analysis_facts p toolResult w d) as (Hstats1 & Hclock1 & _).
  fold w1 in Hstats1, Hclock1.
  assert (loaded_stats w1 = loaded_stats w) as Hloaded
    by (unfold loaded_stats; by rewrite Hstats1).
  unfold updateStats, load_stats, writeFileSync_stats. mrun.
  cbn [project_stats set_ticks clock ticks]. fold (loaded_stats w1).
  rewrite Hloaded, Hclock1. fold entry.
  rewrite sets_to_arrays_ok by (by apply arrays_present_insert). by mrun.
Qed.

Lemma after_analysis_logs (p : process) (toolResult : string) (w : world)
    (d : logs_dir) :
  logs (after_analysis p toolResult w d) =
    Some {| project_activity := project_activity d ++ [activity_entry p toolResult w];
            project_suggestions :=
              project_suggestions d ++ new_suggestions p toolResult w |}.
Proof.
  unfold after_analysis, new_suggestions.
  destruct (suggestion_for toolResult (currentProject w)); cbn; [done |].
  by rewrite app_nil_r.
Qed.

(** X1.  The hook never throws and never touches the project tree or the
    pointer; without a log directory it leaves every file as it was. *)
Theorem postToolAnalysis_is_contained (p : process) (toolResult : string) (w : world) :
  ∃ w',
    postToolAnalysis p toolResult w = (w', Return tt) ∧
    projects w' = projects w ∧
    current_project w' = current_project w ∧
    clock w' = clock w ∧
    (logs w = None → logs w' = None ∧ project_stats w' = project_stats w).
Proof.
  destruct (logs w) as [d |] eqn:Hlogs.
  - unfold postToolAnalysis. rewrite try_catch_run.
    rewrite (postToolAnalysis_try_run p toolResult w d Hlogs).
    destruct (after_analysis_facts p toolResult w d)
      as (_ & Hclock & Hpointer & Hprojects & _).
    destruct (updateStats_run p (currentProject w) (after_analysis p toolResult w d))
      as [-> | [e ->]]; mrun; eexists; (split; [reflexivity |]); cbn;
      by rewrite Hclock, Hpointer, Hprojects.
  - rewrite (postToolAnalysis_no_logs p toolResult w Hlogs).
    eexists. split; [reflexivity |]. cbn. by rewrite Hlogs.
Qed.



Lemma union_in_fresh `{EqDecision A} (item : A) : union_in (Some []) item = [item].
Proof.
  unfold union_in, new_Set. cbn. unfold Set_add.
  case_decide as Hin; [by apply elem_of_nil in Hin | done].
Qed.

Lemma update_entry_None (now currentDir : string) (agent : jsval) :
  update_entry None now currentDir agent =
    {| projectStats.tool_uses := 1;
       projectStats.last_used := Some now;
       projectStats.directories := Some [currentDir];
       projectStats.agents_used := Some [agent] |}.
Proof.
  unfold update_entry.
  cbn [default new_entry projectStats.tool_uses projectStats.directories
       projectStats.agents_used].
  by rewrite !union_in_fresh.
Qed.

(** X3.  A statistics file that is missing or does not parse is started over: the
    file written holds the entry of the current project alone, with one
    use (the project not bearing an inherited name). *)
Theorem unreadable_statistics_start_over (p : process) (toolResult : string)
    (w : world) (d : logs_dir) :
  logs w = Some d →
  project_stats w = None ∨ project_stats w = Some Unparsable →
  inherited (currentProject w) = false →
  ∃ entry,
    project_stats (postToolAnalysis p toolResult w).1 =
      Some (Document {[ currentProject w := entry ]}) ∧
    projectStats.tool_uses entry = 1 ∧
    projectStats.directories entry = Some [cwd p] ∧
    projectStats.agents_used entry =
      Some [stringified (env_value (env p !! "CLAUDE_AGENT_NAME"))].
Proof.
  intros Hlogs Hfile _.
  assert (loaded_stats w = ∅) as Hloaded
    by (unfold loaded_stats; by destruct Hfile as [-> | ->]).
  unfold postToolAnalysis. rewrite try_catch_run.
  rewrite (postToolAnalysis_completes p toolResult w d Hlogs)
    by (rewrite Hloaded; intros k e; by rewrite lookup_empty).
  rewrite Hloaded, lookup_empty. cbn [fst project_stats set_project_stats].
  rewrite insert_empty, map_fmap_singleton.
  rewrite update_entry_None.
  eexists. split; [reflexivity |]. done.
Qed.

Lemma unreadable_statistics_witness :
  ∃ entry,
    project_stats
      (postToolAnalysis hook_process short_result
         (set_project_stats (Some Unparsable) hook_world)).1 =
      Some (Document
              {[ currentProject (set_project_stats (Some Unparsable) hook_world) :=
                   entry ]}) ∧
    projectStats.tool_uses entry = 1 ∧
    projectStats.directories entry = Some [cwd hook_process] ∧
    projectStats.agents_used entry =
      Some [stringified (env_value (env hook_process !! "CLAUDE_AGENT_NAME"))].
Proof.
  apply (unreadable_statistics_start_over hook_process short_result
           (set_project_stats (Some Unparsable) hook_world)
           {| project_activity := []; project_suggestions := [] |}).
  - reflexivity.
  - by right.
  - reflexivity.
Defined.

Lemma projectKeywords_long :
  Forall (λ entry, 4 ≤ length entry.2) projectKeywords.
Proof. repeat constructor. Qed.

(** X4.  A suggestion is appended at most once per run; it is for a tool result
    longer than 100 characters, names a project of the table other than the
    current one, and carries a confidence above 0.3. *)
Theorem suggestions_are_strong_and_foreign (p : process) (toolResult : string)
    (w : world) (before : list suggestionData.t) :
  suggestions_file w = Some before →
  ∃ new,
    suggestions_file (postToolAnalysis p toolResult w).1 = Some (before ++ new) ∧
    length new ≤ 1 ∧
    ∀ entry, entry ∈ new →
      100 < String.length toolResult ∧
      suggestionData.current_project entry = currentProject w ∧
      suggestionData.suggested_project entry ≠ currentProject w ∧
      (∃ keywords,
         (suggestionData.suggested_project entry, keywords) ∈ projectKeywords) ∧
      PrimFloat.ltb threshold (suggestionData.confidence entry) = true.
Proof.
  intros Hbefore. exists (new_suggestions p toolResult w).
  split; [by apply postToolAnalysis_suggestions |].
  unfold new_suggestions.
  destruct (suggestion_for toolResult (currentProject w)) as [m |] eqn:Hfor;
    cbn [length]; [| split; [lia | by intros ? ?%elem_of_nil]].
  split; [lia |]. intros entry ->%list_elem_of_singleton.
  apply suggestion_for_Some in Hfor as (Hlong & Hhead & Hother).
  cbn [suggestion_entry suggestionData.current_project
       suggestionData.suggested_project suggestionData.confidence].
  assert (m ∈ strongMatches (projectMatches (toLowerCase toolResult))) as Hm.
  { destruct (strongMatches _); [done |]. injection Hhead as ->. apply list_elem_of_here. }
  unfold strongMatches in Hm. apply list_elem_of_filter in Hm as [Hstrong Hm].
  rewrite projectMatches_omap, list_elem_of_omap in Hm.
  destruct Hm as ([project keywords] & Hrow & Hscore).
  pose proof (score_project _ _ _ Hscore) as Hname. cbn [fst] in Hname.
  split; [done |]. split; [done |]. split; [done |].
  split; [exists keywords; by rewrite Hname |].
  by apply Is_true_true.
Qed.

Lemma suggestions_witness :
  ∃ new,
    suggestions_file (postToolAnalysis hook_process sample_result idle_hook_world).1 =
      Some ([] ++ new) ∧
    length new ≤ 1 ∧
    ∀ entry, entry ∈ new →
      100 < String.length sample_result ∧
      suggestionData.current_project entry = currentProject idle_hook_world ∧
      suggestionData.suggested_project entry ≠ currentProject idle_hook_world ∧
      (∃ keywords,
         (suggestionData.suggested_project entry, keywords) ∈ projectKeywords) ∧
      PrimFloat.ltb threshold (suggestionData.confidence entry) = true.
Proof.
  apply (suggestions_are_strong_and_foreign hook_process sample_result idle_hook_world []).
  reflexivity.
Defined.

(** X5.  One keyword is never enough: a project is suggested only when at least
    two of its keywords occur in the tool result. *)
Theorem suggestion_needs_two_keywords (p : process) (toolResult : string) (w : world)
    (suggested : string) :
  suggestion_logged p toolResult w suggested →
  ∃ keywords n,
    (suggested, keywords) ∈ projectKeywords ∧
    count_of (occurs_ignoring_case toolResult) keywords n ∧
    2 ≤ n.
Proof.
  intros Hlogged.
  pose proof Hlogged as (before & _ & Hbefore & _).
  apply (suggestion_logged_iff p toolResult w before suggested Hbefore) in Hlogged.
  destruct Hlogged as (m & Hfor & Hname).
  apply suggestion_for_Some in Hfor as (_ & Hhead & _).
  assert (first_above_threshold toolResult suggested) as Hfirst
    by (apply first_strong_match; by exists m).
  destruct Hfirst as (i & q & (keywords & n & Hrow & Hn & ->) & Habove & _).
  apply list_elem_of_lookup_2 in Hrow.
  pose proof (proj1 (Forall_forall _ _) projectKeywords_long _ Hrow) as Hlong.
  cbn [snd] in Hlong.
  apply score_of_threshold in Habove; [| lia].
  exists keywords, n. split; [done |]. split; [done | lia].
Qed.

Lemma suggestion_logged_sample :
  suggestion_logged hook_process sample_result idle_hook_world "Arias-v-Bianchi".
Proof.
  apply (suggestion_logged_iff hook_process sample_result idle_hook_world [] _ eq_refl).
  eexists. split; [vm_compute; reflexivity | reflexivity].
Qed.

Lemma two_keywords_witness :
  ∃ keywords n,
    ("Arias-v-Bianchi", keywords) ∈ projectKeywords ∧
    count_of (occurs_ignoring_case sample_result) keywords n ∧
    2 ≤ n.
Proof.
  apply (suggestion_needs_two_keywords hook_process sample_result idle_hook_world).
  exact suggestion_logged_sample.
Defined.

Lemma trimStart_blank (s : string) : blank s = true → trimStart s = "".
Proof.
  induction s as [| c s IH]; [done |]. cbn [blank trimStart].
  intros [Hc Hs]%andb_true_iff. rewrite Hc. by apply IH.
Qed.

(** X6.  A pointer file that is empty or blank stands for the project named by
    the empty string, not for ['none']: that is the project of the activity
    line and the key of the statistics entry. *)
Theorem blank_pointer_is_the_empty_project (p : process) (toolResult : string)
    (w : world) (d : logs_dir) (content : string) :
  current_project w = Some content →
  blank content = true →
  logs w = Some d →
  arrays_present (loaded_stats w) →
  currentProject w = "" ∧
  ∃ stats entry,
    project_stats (postToolAnalysis p toolResult w).1 = Some (Document stats) ∧
    stats !! "" = Some entry ∧
    projectStats.tool_uses entry = S (projectStats.tool_uses (entry_of w "")).
Proof.
  intros Hpointer Hblank Hlogs Hpresent.
  assert (currentProject w = "") as Hcurrent.
  { unfold currentProject. rewrite Hpointer. unfold trim.
    by rewrite (trimStart_blank content Hblank). }
  split; [done |].
  unfold postToolAnalysis. rewrite try_catch_run.
  rewrite (postToolAnalysis_completes p toolResult w d Hlogs Hpresent).
  rewrite Hcurrent. cbn [fst project_stats set_project_stats].
  eexists _, _. split; [reflexivity |].
  rewrite lookup_fmap, lookup_insert_eq. split; [reflexivity |]. reflexivity.
Qed.

Lemma blank_pointer_witness :
  let w :=
    {| projects := ∅;
       current_project := Some " ";
       logs := Some {| project_activity := []; project_suggestions := [] |};
       project_stats := None;
       clock := λ _, "2025-01-02T00:00:00.000Z";
       ticks := 0 |} in
  currentProject w = "" ∧
  ∃ stats entry,
    project_stats (postToolAnalysis hook_process short_result w).1 =
      Some (Document stats) ∧
    stats !! "" = Some entry ∧
    projectStats.tool_uses entry = S (projectStats.tool_uses (entry_of w "")).
Proof.
  intros w.
  apply (blank_pointer_is_the_empty_project hook_process short_result w
           {| project_activity := []; project_suggestions := [] |} " ").
  - reflexivity.
  - reflexivity.
  - reflexivity.
  - intros k e. unfold loaded_stats. cbn. by rewrite lookup_empty.
Defined.

Lemma confidence_bounds (c n : nat) :
  1 ≤ c ≤ n → n ≤ 6 →
  PrimFloat.ltb 0%float (PrimFloat.div (Number c) (Number n)) = true ∧
  PrimFloat.leb (PrimFloat.div (Number c) (Number n)) 1%float = true.
Proof.
  intros [Hc1 Hcn] Hn.
  destruct n as [|[|[|[|[|[|[|n]]]]]]]; try (exfalso; lia);
    destruct c as [|[|[|[|[|[|[|c]]]]]]]; try (exfalso; lia);
    split; vm_compute; reflexivity.
Qed.

Lemma matchCount_le (lowerResult : string) (keywords : list string) :
  matchCount lowerResult keywords ≤ length keywords.
Proof. apply length_filter. Qed.

(** X7.  Every recorded score belongs to a row of the table, counts between one
    and all of its keywords, and has a confidence in (0, 1]; the scores come
    in table order, one project at most once. *)
Theorem recorded_scores_are_bounded (lowerResult : string) :
  Forall (λ m, ∃ keywords,
            (projectMatch.project m, keywords) ∈ projectKeywords ∧
            1 ≤ projectMatch.matches m ≤ length keywords ∧
            PrimFloat.ltb 0%float (projectMatch.confidence m) = true ∧
            PrimFloat.leb (projectMatch.confidence m) 1%float = true)
    (projectMatches lowerResult) ∧
  projectMatch.project <$> projectMatches lowerResult `sublist_of` projectKeywords.*1.
Proof.
  rewrite projectMatches_omap. split.
  - apply Forall_forall. intros m Hm. apply list_elem_of_omap in Hm.
    destruct Hm as ([project keywords] & Hrow & Hscore).
    pose proof (proj1 (Forall_forall _ _) projectKeywords_sizes _ Hrow) as Hsize.
    cbn [snd] in Hsize.
    pose proof (matchCount_le lowerResult keywords) as Hle.
    unfold score in Hscore. cbn [fst snd] in Hscore.
    case_bool_decide as Hpos; [| done]. injection Hscore as <-.
    cbn [projectMatch.project projectMatch.matches projectMatch.confidence].
    exists keywords. split; [done |]. split; [lia |].
    unfold confidence. apply confidence_bounds; lia.
  - induction projectKeywords as [| entry table IH]; [done |].
    cbn [omap list_omap fmap list_fmap].
    destruct (score lowerResult entry) as [m |] eqn:Hscore.
    + cbn [fmap list_fmap]. rewrite (score_project _ _ _ Hscore).
      by apply sublist_skip.
    + by apply sublist_cons.
Qed.

Lemma invocation_step (p : process) (toolResult : string) (w : world) (d : logs_dir) :
  logs w = Some d →
  arrays_present (loaded_stats w) →
  let w' := (postToolAnalysis p toolResult w).1 in
  is_Some (logs w') ∧
  arrays_present (loaded_stats w') ∧
  currentProject w' = currentProject w ∧
  entry_of w' (currentProject w) =
    written_entry
      (update_entry (loaded_stats w !! currentProject w)
         (clock w (ticks (after_analysis p toolResult w d))) (cwd p)
         (env_value (env p !! "CLAUDE_AGENT_NAME"))).
Proof.
  intros Hlogs Hpresent.
  unfold postToolAnalysis. rewrite try_catch_run.
  rewrite (postToolAnalysis_completes p toolResult w d Hlogs Hpresent).
  destruct (after_analysis_facts p toolResult w d) as (_ & _ & Hpointer & _).
  cbn [fst]. split; [| split; [| split]].
  - cbn. rewrite after_analysis_logs. by eexists.
  - unfold loaded_stats at 1. cbn [project_stats set_project_stats].
    by apply arrays_present_written, arrays_present_insert.
  - unfold currentProject at 1. cbn. by rewrite Hpointer.
  - unfold entry_of, loaded_stats at 1. cbn [project_stats set_project_stats].
    by rewrite lookup_fmap, lookup_insert_eq.
Qed.

(** X8.  The counter adds up: after any number of invocations on a well-formed
    statistics file, [tool_uses] of the current project (one not bearing an
    inherited name) has grown by that number; its [directories] then hold
    the earlier ones and the working directory, each once. *)
Theorem invocations_add_up (p : process) (toolResults : list string) (w : world)
    (d : logs_dir) :
  logs w = Some d →
  arrays_present (loaded_stats w) →
  inherited (currentProject w) = false →
  let project := currentProject w in
  let w' := invocations p toolResults w in
  projectStats.tool_uses (entry_of w' project) =
    projectStats.tool_uses (entry_of w project) + length toolResults ∧
  (toolResults ≠ [] →
   ∃ directories,
     projectStats.directories (entry_of w' project) = Some directories ∧
     NoDup directories ∧
     ∀ dir, dir ∈ directories ↔
            dir ∈ default [] (projectStats.directories (entry_of w project)) ∨
            dir = cwd p).
Proof.
  intros Hlogs Hpresent _ project. subst project.
  revert w d Hlogs Hpresent.
  induction toolResults as [| toolResult rest IH]; intros w d Hlogs Hpresent.
  - cbn. split; [lia | done].
  - cbn [invocations length].
    destruct (invocation_step p toolResult w d Hlogs Hpresent)
      as ([d' Hlogs'] & Hpresent' & Hpointer & Hentry).
    set (w1 := (postToolAnalysis p toolResult w).1) in *.
    destruct (IH w1 d' Hlogs' Hpresent') as [Huses Hdirs].
    rewrite Hpointer in Huses, Hdirs. rewrite Hentry in Huses, Hdirs.
    cbn [written_entry update_entry projectStats.tool_uses projectStats.directories]
      in Huses, Hdirs.
    fold (entry_of w (currentProject w)) in Huses, Hdirs.
    split; [cbn zeta in Huses |- *; lia |].
    intros _. destruct rest as [| next rest].
    + cbn [invocations]. rewrite Hentry.
      exists (union_in (projectStats.directories (entry_of w (currentProject w))) (cwd p)).
      split; [reflexivity |].
      split; [apply union_in_NoDup |]. intros dir. apply elem_of_union_in.
    + destruct Hdirs as (directories & Hfound & Hnodup & Hin); [done |].
      exists directories. split; [done |]. split; [done |].
      intros dir. rewrite Hin. cbn -[union_in]. rewrite elem_of_union_in. tauto.
Qed.

Lemma invocations_witness :
  let project := currentProject hook_world in
  let w' := invocations hook_process [short_result; sample_result; short_result]
              hook_world in
  projectStats.tool_uses (entry_of w' project) =
    projectStats.tool_uses (entry_of hook_world project) + 3 ∧
  ([short_result; sample_result; short_result] ≠ [] →
   ∃ directories,
     projectStats.directories (entry_of w' project) = Some directories ∧
     NoDup directories ∧
     ∀ dir, dir ∈ directories ↔
            dir ∈ default [] (projectStats.directories (entry_of hook_world project)) ∨
            dir = cwd hook_process).
Proof.
  apply (invocations_add_up hook_process [short_result; sample_result; short_result]
           hook_world {| project_activity := []; project_suggestions := [] |}).
  - reflexivity.
  - intros k e. unfold loaded_stats, hook_world. cbn [project_stats].
    intros [<- <-]%lookup_singleton_Some. split; by eexists.
  - reflexivity.
Defined.

Lemma fmap_collision {A B} (f : A → B) (l : list A) (a b : A) :
  a ∈ l → b ∈ l → a ≠ b → f a = f b → ¬ NoDup (f <$> l).
Proof.
  intros Ha Hb Hne Hf Hnodup.
  induction l as [| x l IH]; [by apply elem_of_nil in Ha |].
  cbn [fmap list_fmap] in Hnodup. apply NoDup_cons in Hnodup as [Hx Hnodup].
  apply elem_of_cons in Ha as [-> | Ha]; apply elem_of_cons in Hb as [-> | Hb].
  - done.
  - apply Hx. rewrite Hf. by apply list_elem_of_fmap_2.
  - apply Hx. rewrite <- Hf. by apply list_elem_of_fmap_2.
  - by apply IH.
Qed.

(** X9.  With [CLAUDE_AGENT_NAME] unset the agent is [undefined]: a [Set] keeps it
    apart from a [null] read from the file, and [JSON.stringify] writes both
    as [null], so the [agents_used] written then holds [null] twice. *)
Theorem unset_agent_is_written_twice (p : process) (toolResult : string) (w : world)
    (d : logs_dir) (entry : projectStats.t) (agents : list jsval) :
  logs w = Some d →
  arrays_present (loaded_stats w) →
  env p !! "CLAUDE_AGENT_NAME" = None →
  loaded_stats w !! currentProject w = Some entry →
  projectStats.agents_used entry = Some agents →
  JsNull ∈ agents →
  ∃ stats written_agents,
    project_stats (postToolAnalysis p toolResult w).1 = Some (Document stats) ∧
    projectStats.agents_used <$> stats !! currentProject w = Some (Some written_agents) ∧
    ¬ NoDup written_agents.
Proof.
  intros Hlogs Hpresent Hagent Hentry Hagents Hnull.
  unfold postToolAnalysis. rewrite try_catch_run.
  rewrite (postToolAnalysis_completes p toolResult w d Hlogs Hpresent).
  cbn [fst project_stats set_project_stats].
  exists (written_entry <$>
            <[currentProject w :=
                update_entry (loaded_stats w !! currentProject w)
                  (clock w (ticks (after_analysis p toolResult w d))) (cwd p)
                  (env_value (env p !! "CLAUDE_AGENT_NAME"))]> (loaded_stats w)),
         (stringified <$> union_in (Some agents) JsUndefined).
  split; [reflexivity |]. split.
  - rewrite lookup_fmap, lookup_insert_eq, Hentry, Hagent.
    unfold written_entry, update_entry. cbn -[union_in]. by rewrite Hagents.
  - apply (fmap_collision stringified _ JsNull JsUndefined); [| | done | done].
    + apply elem_of_union_in. by left.
    + apply elem_of_union_in. by right.
Qed.

Lemma unset_agent_witness :
  let p := {| cwd := "/work"; env := ∅ |} in
  let w :=
    set_project_stats
      (Some (Document
               {[ "Arias-v-Bianchi" :=
                    {| projectStats.tool_uses := 1;
                       projectStats.last_used := None;
                       projectStats.directories := Some ["/work"];
                       projectStats.agents_used := Some [JsNull] |} ]})) hook_world in
  ∃ stats written_agents,
    project_stats (postToolAnalysis p short_result w).1 = Some (Document stats) ∧
    projectStats.agents_used <$> stats !! currentProject w = Some (Some written_agents) ∧
    ¬ NoDup written_agents.
Proof.
  intros p w.
  apply (unset_agent_is_written_twice p short_result w
           {| project_activity := []; project_suggestions := [] |}
           {| projectStats.tool_uses := 1;
              projectStats.last_used := None;
              projectStats.directories := Some ["/work"];
              projectStats.agents_used := Some [JsNull] |} [JsNull]).
  - reflexivity.
  - intros k e. unfold loaded_stats, w. cbn [project_stats set_project_stats].
    intros [<- <-]%lookup_singleton_Some. split; by eexists.
  - reflexivity.
  - vm_compute; reflexivity.
  - reflexivity.
  - apply list_elem_of_here.
Defined.

Lemma stringified_collision (a b : jsval) :
  stringified a = stringified b → a ≠ b →
  (a = JsNull ∧ b = JsUndefined) ∨ (a = JsUndefined ∧ b = JsNull).
Proof. destruct a, b; cbn; intros Heq Hne; try done; auto. Qed.

(** X18.  What a completed run leaves in the statistics file for the current
    project (one not bearing an inherited name): [tool_uses] one above the
    previous value, [last_used] the clock reading just taken, [directories]
    the previous ones and the working directory without duplicates, and
    [agents_used] the previous agents and the agent as [JSON.stringify]
    writes them, without duplicates exactly when [null] and [undefined] are
    not both among them; the other entries are rewritten as read. *)
Theorem own_entry_is_updated_on_disk (p : process) (toolResult : string)
    (w w' : world) :
  postToolAnalysis_try p toolResult w = (w', Return tt) →
  inherited (currentProject w) = false →
  let previous := entry_of w (currentProject w) in
  let agents :=
    default [] (projectStats.agents_used previous) ++
    [env_value (env p !! "CLAUDE_AGENT_NAME")] in
  ∃ persisted entry directories agents_used,
    project_stats w' = Some (Document persisted) ∧
    persisted !! currentProject w = Some entry ∧
    (∀ other, other ≠ currentProject w →
              persisted !! other = written_entry <$> loaded_stats w !! other) ∧
    projectStats.tool_uses entry = projectStats.tool_uses previous + 1 ∧
    projectStats.last_used entry = Some (clock w (pred (ticks w'))) ∧
    projectStats.directories entry = Some directories ∧
    NoDup directories ∧
    (∀ dir, dir ∈ directories ↔
            dir ∈ default [] (projectStats.directories previous) ∨ dir = cwd p) ∧
    projectStats.agents_used entry = Some agents_used ∧
    (∀ a, a ∈ agents_used ↔ ∃ b, b ∈ agents ∧ a = stringified b) ∧
    (NoDup agents_used ↔ ¬ (JsNull ∈ agents ∧ JsUndefined ∈ agents)).
Proof.
  intros Hrun _ previous agents.
  destruct (statistics_object_update p toolResult w w' Hrun)
    as (stats & entry & directories & in_memory & Hfile & Hentry & Hothers & Huses &
        _ & Hlast & Hdirectories & Hagents & Hnodup_dirs & Hnodup & Hin_dirs &
        Hin & _).
  assert (∀ b, b ∈ in_memory ↔ b ∈ agents) as Hin'.
  { intros b. rewrite Hin. unfold agents, previous, entry_of.
    rewrite elem_of_app, list_elem_of_singleton. done. }
  exists (written_entry <$> stats), (written_entry entry), directories,
    (stringified <$> in_memory).
  split; [done |].
  split; [by rewrite lookup_fmap, Hentry |].
  split; [intros other Hother; by rewrite lookup_fmap, Hothers |].
  split; [done |]. split; [done |]. split; [done |]. split; [done |].
  split; [done |].
  split; [cbn; by rewrite Hagents |].
  split.
  - intros a. rewrite list_elem_of_fmap. split.
    + intros (b & -> & Hb). exists b. by rewrite <- Hin'.
    + intros (b & Hb & ->). exists b. by rewrite Hin'.
  - split.
    + intros Hwritten [Hnull Hundefined]. rewrite <- Hin' in Hnull, Hundefined.
      by apply (fmap_collision stringified in_memory JsNull JsUndefined).
    + intros Hboth. apply NoDup_fmap_2_strong; [| done].
      intros a b Ha Hb Heq. destruct (decide (a = b)) as [| Hne]; [done |].
      destruct Hboth. rewrite Hin' in Ha, Hb.
      destruct (stringified_collision a b Heq Hne) as [[-> ->] | [-> ->]]; done.
Qed.

Lemma own_entry_witness :
  let w' := (postToolAnalysis_try hook_process short_result hook_world).1 in
  let previous := entry_of hook_world (currentProject hook_world) in
  let agents :=
    default [] (projectStats.agents_used previous) ++
    [env_value (env hook_process !! "CLAUDE_AGENT_NAME")] in
  ∃ persisted entry directories agents_used,
    project_stats w' = Some (Document persisted) ∧
    persisted !! currentProject hook_world = Some entry ∧
    (∀ other, other ≠ currentProject hook_world →
              persisted !! other = written_entry <$> loaded_stats hook_world !! other) ∧
    projectStats.tool_uses entry = projectStats.tool_uses previous + 1 ∧
    projectStats.last_used entry = Some (clock hook_world (pred (ticks w'))) ∧
    projectStats.directories entry = Some directories ∧
    NoDup directories ∧
    (∀ dir, dir ∈ directories ↔
            dir ∈ default [] (projectStats.directories previous) ∨
            dir = cwd hook_process) ∧
    projectStats.agents_used entry = Some agents_used ∧
    (∀ a, a ∈ agents_used ↔ ∃ b, b ∈ agents ∧ a = stringified b) ∧
    (NoDup agents_used ↔ ¬ (JsNull ∈ agents ∧ JsUndefined ∈ agents)).
Proof.
  apply (own_entry_is_updated_on_disk hook_process short_result hook_world).
  - vm_compute; reflexivity.
  - reflexivity.
Defined.

End HookFacts.

(** ** From consolidation to restoration *)

Module PipelineFacts.
Import Sys SysFacts Js JsFacts JsonFacts QuickSmartSessions QuickSmartSessionsFacts.
Import SmartStart.

#[local] Arguments String.append !_ _ / : simpl nomatch.

(** The content of a file of a project, when both exist. *)
Definition project_file (w : world) (project file : string) : option string :=
  dir ← projects w !! project; dir !! file.

(** X10.  For a project whose directory exists, consolidation returns, and
    the record is the only file it can change: no directory is created or
    removed, every other file of every project keeps its content, and the
    pointer, the logs and the statistics are left alone. *)
Theorem consolidation_touches_only_the_record (projectName : string) (w : world)
    (dir : gmap string string) :
  projects w !! projectName = Some dir →
  ∃ w',
    generateQuickSmartSession projectName w = (w', Return tt) ∧
    current_project w' = current_project w ∧
    logs w' = logs w ∧
    project_stats w' = project_stats w ∧
    (∀ project, is_Some (projects w' !! project) ↔ is_Some (projects w !! project)) ∧
    ∀ project file,
      project ≠ projectName ∨ file ≠ smartSessionName projectName →
      project_file w' project file = project_file w project file.
Proof.
  intros Hdir.
  rewrite (generateQuickSmartSession_run projectName w dir Hdir). cbv zeta.
  case_bool_decide.
  - exists w. by repeat split.
  - eexists. split; [reflexivity |]. cbn [current_project logs project_stats
                                           set_projects set_ticks].
    split; [done |]. split; [done |]. split; [done |]. split.
    + intros project. unfold project_file. cbn [projects set_projects set_ticks].
      destruct (decide (project = projectName)) as [-> | Hne].
      * rewrite lookup_insert_eq, Hdir. split; by eexists.
      * by rewrite lookup_insert_ne.
    + intros project file Hother. unfold project_file.
      cbn [projects set_projects set_ticks].
      destruct (decide (project = projectName)) as [-> | Hne].
      * rewrite lookup_insert_eq, Hdir. cbn.
        destruct Hother as [? | Hfile]; [done |]. by rewrite lookup_insert_ne.
      * by rewrite lookup_insert_ne.
Qed.

Lemma consolidation_witness :
  ∃ w',
    generateQuickSmartSession "demo" demo_world = (w', Return tt) ∧
    current_project w' = current_project demo_world ∧
    logs w' = logs demo_world ∧
    project_stats w' = project_stats demo_world ∧
    (∀ project,
       is_Some (projects w' !! project) ↔ is_Some (projects demo_world !! project)) ∧
    ∀ project file,
      project ≠ "demo" ∨ file ≠ smartSessionName "demo" →
      project_file w' project file = project_file demo_world project file.
Proof.
  apply (consolidation_touches_only_the_record "demo" demo_world demo_dir).
  reflexivity.
Defined.

(** X11.  The record embeds the number of session files and nothing else of
    them: two directories with equally many session files, whatever their
    names and contents, get the same record at the same clock. *)
Theorem record_depends_on_the_count_only (projectName : string) (w1 w2 : world)
    (dir1 dir2 : gmap string string) (sessions1 sessions2 : list string) :
  projects w1 !! projectName = Some dir1 →
  projects w2 !! projectName = Some dir2 →
  session_files dir1 sessions1 →
  session_files dir2 sessions2 →
  length sessions1 = length sessions2 →
  clock w1 = clock w2 →
  ticks w1 = ticks w2 →
  sessions1 ≠ [] →
  ∃ record,
    smartSessionFile (generateQuickSmartSession projectName w1).1 projectName =
      Some record ∧
    smartSessionFile (generateQuickSmartSession projectName w2).1 projectName =
      Some record.
Proof.
  intros Hdir1 Hdir2 Hsessions1 Hsessions2 Hlength Hclock Hticks Hne.
  pose proof (sessionFiles_length dir1 sessions1 Hsessions1) as Hcount1.
  pose proof (sessionFiles_length dir2 sessions2 Hsessions2) as Hcount2.
  assert (length sessions1 ≠ 0) as Hpos by (by destruct sessions1).
  rewrite (generateQuickSmartSession_run projectName w1 dir1 Hdir1).
  rewrite (generateQuickSmartSession_run projectName w2 dir2 Hdir2). cbv zeta.
  rewrite !bool_decide_false by lia. cbn [fst].
  rewrite !smartSessionFile_written.
  exists (smartSessionContent projectName sessions1 (clock w1) (ticks w1)).
  split; f_equal.
  - by apply smartSessionContent_length.
  - rewrite <- Hclock, <- Hticks. apply smartSessionContent_length. lia.
Qed.

Lemma trimEnd_last (s : string) (c : ascii) :
  is_white_space c = false →
  trimEnd (s +:+ String c "") = s +:+ String c "".
Proof.
  intros Hc. induction s as [| x s IH]; cbn [String.append trimEnd].
  - by rewrite Hc.
  - rewrite IH. rewrite bool_decide_false by (by destruct s).
    by rewrite andb_false_r.
Qed.

(** Text between braces is not trimmed. *)
Lemma trim_braces (mid : string) :
  trim (String "{" (mid +:+ "}")) = String "{" (mid +:+ "}").
Proof.
  unfold trim. cbn [trimStart].
  change (is_white_space "{") with false. cbn iota.
  change (String "{" (mid +:+ "}")) with (String "{" mid +:+ String "}" "").
  by apply trimEnd_last.
Qed.

Lemma braces_app (x n1 b n2 z : string) :
  ("{" +:+ x +:+ "}") +:+ n1 +:+ b +:+ n2 +:+ "{" +:+ z +:+ "}" =
    String "{" ((x +:+ "}" +:+ n1 +:+ b +:+ n2 +:+ "{" +:+ z) +:+ "}").
Proof.
  cbn [String.append]. f_equal.
  repeat (progress (rewrite ?app_assoc'; cbn [String.append])). reflexivity.
Qed.

Lemma smartSessionContent_braces (projectName : string) (l : list string)
    (clock : nat → string) (t : nat) :
  ∃ mid, smartSessionContent projectName l clock t = String "{" (mid +:+ "}").
Proof.
  unfold smartSessionContent, join. unfold JSON_stringify at 1 3.
  eexists. apply braces_app.
Qed.

Lemma trim_smartSessionContent (projectName : string) (l : list string)
    (clock : nat → string) (t : nat) :
  trim (smartSessionContent projectName l clock t) =
    smartSessionContent projectName l clock t.
Proof.
  destruct (smartSessionContent_braces projectName l clock t) as [mid ->].
  apply trim_braces.
Qed.

Lemma JSON_stringify_not_empty (obj : json_object) : JSON_stringify obj ≠ "".
Proof. done. Qed.

Section Restorer.

Context {JSON chittyChatProject environmentResult : Type}.
Context (JSON_parse : string → option JSON).
Context (connectToChittyChat : string → M chittyChatProject).
Context (restoreProjectEnvironment :
           string → smart_session JSON → M (option environmentResult)).
Context (displaySmartContext : smart_session JSON → M unit).
Context (setupChittyChatIntegration : string → chittyChatProject → M unit).
Context (createSessionScript : string → environmentResult → M unit).

#[local] Abbreviation load := (loadSmartSession JSON JSON_parse).
#[local] Abbreviation start :=
  (startSmartSession JSON JSON_parse chittyChatProject environmentResult
     connectToChittyChat restoreProjectEnvironment displaySmartContext
     setupChittyChatIntegration createSessionScript).

(** What [loadSmartSession] makes of a record, one line after the other. *)
Lemma loadSmartSession_run (projectName : string) (w : world) (content : string) :
  smartSessionFile w projectName = Some content →
  let lines := split LF (trim content) in
  let optional (line : option string) : option (option JSON) :=
    match line with
    | Some l => if bool_decide (l = "") then Some None else Some <$> JSON_parse l
    | None => Some None
    end in
  load projectName w =
    (w, Return (sessionData ← lines !! 0 ≫= JSON_parse;
                contextMessage ← optional (lines !! 1);
                suggestions ← optional (lines !! 2);
                Some {| sessionData := sessionData;
                        contextMessage := contextMessage;
                        suggestions := suggestions |})).
Proof.
  intros Hfile lines optional.
  unfold loadSmartSession, existsSync_smartSession, readFileSync_smartSession.
  mrun. rewrite Hfile. rewrite bool_decide_true by eauto. cbn [negb]. mrun.
  rewrite Hfile. mrun. fold lines.
  unfold parse_if_present, parse, optional.
  destruct (lines !! 0 ≫= JSON_parse) as [data |]; mrun;
    cbn [mbind option_bind]; [| done].
  destruct (lines !! 1) as [line1 |];
    [case_bool_decide; [| cbn [mbind option_bind]; destruct (JSON_parse line1)] |];
    mrun; cbn [fmap option_fmap option_map mbind option_bind]; try done;
    (destruct (lines !! 2) as [line2 |];
       [case_bool_decide; [| cbn [mbind option_bind]; destruct (JSON_parse line2)] |];
       mrun; cbn [fmap option_fmap option_map mbind option_bind]; done).
Qed.

(** X12.  Restoration reads what consolidation wrote: after a run that found
    session files, [loadSmartSession] hands [JSON.parse] exactly the three
    serialised objects, and yields their parsed values unless one of them is
    rejected. *)
Theorem restoration_reads_the_record (projectName : string) (w : world)
    (dir : gmap string string) (sessions : list string) :
  projects w !! projectName = Some dir →
  session_files dir sessions →
  sessions ≠ [] →
  let w' := (generateQuickSmartSession projectName w).1 in
  let header := JSON_stringify (smartSession projectName sessions (clock w (ticks w))) in
  let context :=
    JSON_stringify
      (QuickSmartSessions.contextMessage projectName sessions (clock w (S (ticks w)))) in
  let suggestion_line :=
    JSON_stringify
      (QuickSmartSessions.suggestions projectName sessions (clock w (S (S (ticks w))))) in
  load projectName w' =
    (w', Return (sessionData ← JSON_parse header;
                 contextMessage ← JSON_parse context;
                 suggestions ← JSON_parse suggestion_line;
                 Some {| sessionData := sessionData;
                         contextMessage := Some contextMessage;
                         suggestions := Some suggestions |})).
Proof.
  intros Hdir Hsessions Hne w' header context suggestion_line.
  pose proof (sessionFiles_length dir sessions Hsessions) as Hcount.
  assert (length sessions ≠ 0) as Hpos by (by destruct sessions).
  assert (smartSessionFile w' projectName =
            Some (smartSessionContent projectName sessions (clock w) (ticks w)))
    as Hfile.
  { unfold w'. rewrite (generateQuickSmartSession_run projectName w dir Hdir).
    cbv zeta. rewrite bool_decide_false by lia. cbn [fst].
    rewrite smartSessionFile_written. f_equal.
    by apply smartSessionContent_length. }
  rewrite (loadSmartSession_run projectName w' _ Hfile). cbv zeta.
  rewrite trim_smartSessionContent, smartSessionContent_lines. cbn [lookup list_lookup].
  fold header context suggestion_line.
  rewrite !bool_decide_false by apply JSON_stringify_not_empty.
  cbn [mbind option_bind].
  destruct (JSON_parse header); [| done]. cbn [mbind option_bind].
  destruct (JSON_parse context); [| done].
  cbn [fmap option_fmap option_map mbind option_bind].
  by destruct (JSON_parse suggestion_line).
Qed.

(** X13.  A record whose first line [JSON.parse] rejects counts as no record:
    loading yields [null], [startSmartSession] returns [false], and nothing
    is changed. *)
Theorem corrupt_record_is_no_record (projectName : string) (w : world)
    (content : string) :
  smartSessionFile w projectName = Some content →
  split LF (trim content) !! 0 ≫= JSON_parse = None →
  load projectName w = (w, Return None) ∧
  start projectName w = (w, Return false).
Proof.
  intros Hfile Hreject.
  assert (load projectName w = (w, Return None)) as Hload.
  { rewrite (loadSmartSession_run projectName w content Hfile). cbv zeta.
    by rewrite Hreject. }
  split; [done |].
  unfold startSmartSession, startSmartSession_try. mrun. rewrite Hload. by mrun.
Qed.

(** X14.  A record that holds the header line only loads, with no context and no
    suggestions. *)
Theorem header_only_record_loads (projectName : string) (w : world)
    (content line : string) (data : JSON) :
  smartSessionFile w projectName = Some content →
  split LF (trim content) = [line] →
  JSON_parse line = Some data →
  load projectName w =
    (w, Return (Some {| sessionData := data;
                        contextMessage := None;
                        suggestions := None |})).
Proof.
  intros Hfile Hlines Hparse.
  rewrite (loadSmartSession_run projectName w content Hfile). cbv zeta.
  rewrite Hlines. cbn [lookup list_lookup mbind option_bind]. by rewrite Hparse.
Qed.

End Restorer.

(** A parser that keeps each line as it is, over the demonstration project. *)
Lemma restoration_reads_witness :
  let w' := (generateQuickSmartSession "demo" demo_world).1 in
  let header := JSON_stringify (smartSession "demo" demo_sessions (clock demo_world 0)) in
  let context :=
    JSON_stringify
      (QuickSmartSessions.contextMessage "demo" demo_sessions (clock demo_world 1)) in
  let suggestion_line :=
    JSON_stringify
      (QuickSmartSessions.suggestions "demo" demo_sessions (clock demo_world 2)) in
  loadSmartSession string Some "demo" w' =
    (w', Return (sessionData ← Some header;
                 contextMessage ← Some context;
                 suggestions ← Some suggestion_line;
                 Some {| sessionData := sessionData;
                         contextMessage := Some contextMessage;
                         suggestions := Some suggestions |})).
Proof.
  apply (restoration_reads_the_record Some "demo" demo_world demo_dir demo_sessions).
  - reflexivity.
  - exact demo_session_files.
  - discriminate.
Defined.

(** The stale record of the demonstration project, under a parser that
    rejects every line. *)
Lemma corrupt_record_witness :
  loadSmartSession unit (λ _, None) "demo" demo_world = (demo_world, Return None) ∧
  startSmartSession unit (λ _, None) unit unit
    (λ _, ret tt) (λ _ _, ret (Some tt)) (λ _, ret tt) (λ _ _, ret tt) (λ _ _, ret tt)
    "demo" demo_world = (demo_world, Return false).
Proof.
  apply (corrupt_record_is_no_record (λ _, None) (λ _, ret tt) (λ _ _, ret (Some tt))
           (λ _, ret tt) (λ _ _, ret tt) (λ _ _, ret tt) "demo" demo_world "stale").
  - vm_compute; reflexivity.
  - vm_compute; reflexivity.
Defined.

(** The same record under a parser that accepts every line. *)
Lemma header_only_witness :
  loadSmartSession unit (λ _, Some tt) "demo" demo_world =
    (demo_world, Return (Some {| sessionData := tt;
                                 contextMessage := None;
                                 suggestions := None |})).
Proof.
  apply (header_only_record_loads (λ _, Some tt) "demo" demo_world "stale" "stale" tt).
  - vm_compute; reflexivity.
  - vm_compute; reflexivity.
  - reflexivity.
Defined.

Lemma record_depends_witness :
  let w2 :=
    set_projects {[ "demo" := {[ "x.jsonl" := "other"; "session-y.jsonl" := "" ]} ]}
      demo_world in
  ∃ record,
    smartSessionFile (generateQuickSmartSession "demo" demo_world).1 "demo" =
      Some record ∧
    smartSessionFile (generateQuickSmartSession "demo" w2).1 "demo" = Some record.
Proof.
  intros w2.
  apply (record_depends_on_the_count_only "demo" demo_world w2 demo_dir
           {[ "x.jsonl" := "other"; "session-y.jsonl" := "" ]} demo_sessions
           (filter (λ file, is_session_file file)
              (elements (dom ({[ "x.jsonl" := "other"; "session-y.jsonl" := "" ]}
                                : gmap string string))))).
  - vm_compute; reflexivity.
  - vm_compute; reflexivity.
  - exact demo_session_files.
  - apply session_files_elements.
  - vm_compute; reflexivity.
  - reflexivity.
  - reflexivity.
  - vm_compute; discriminate.
Defined.

End PipelineFacts.

(** ** The list of smart sessions: properties *)

From stdpp Require Import sorting.

Module ListingFacts.
Import Sys SysFacts Js JsFacts JsonFacts QuickSmartSessions QuickSmartSessionsFacts.
Import SmartSessionList.

Section Listing.

Context {JSON value : Type}.
Context (JSON_parse : string → option JSON).
Context (property : JSON → string → option value).
Context (sort : list (listed value) → list (listed value)).

(** [Array.prototype.sort] rearranges the array, whatever the comparison. *)
Hypothesis sort_rearranges : ∀ l, sort l ≡ₚ l.

#[local] Abbreviation describe := (describe JSON JSON_parse value property).
#[local] Abbreviation list_sessions :=
  (listAvailableSessions JSON JSON_parse value property sort).

(** The entry of a project, when the loop pushes one. *)
Definition pushed_entry (w : world) (project : string) : option (listed value) :=
  SmartStart.smartSessionFile w project ≫= describe project.

Lemma describe_name (project content : string) (entry : listed value) :
  describe project content = Some entry → name value entry = project.
Proof.
  unfold SmartSessionList.describe. intros H.
  destruct (split LF content !! 0 ≫= JSON_parse) as [data |]; [| done].
  cbn [mbind option_bind] in H.
  destruct (property data "consolidated_sessions"); [| done].
  cbn [mbind option_bind] in H.
  destruct (property data "generated_at"); [| done].
  cbn [mbind option_bind] in H. by injection H as <-.
Qed.

Lemma entry_of_name (w : world) (project : string) (entry : listed value) :
  pushed_entry w project = Some entry → name value entry = project.
Proof.
  unfold pushed_entry. destruct (SmartStart.smartSessionFile w project); [| done].
  apply describe_name.
Qed.

Lemma foldl_visit (w : world) (projects : list string) (acc : list (listed value)) :
  foldl (visit JSON JSON_parse value property w) acc projects =
    acc ++ omap (pushed_entry w) projects.
Proof.
  revert acc. induction projects as [| p ps IH]; intros acc; cbn [foldl omap list_omap].
  - by rewrite app_nil_r.
  - rewrite IH. unfold visit at 1.
    change (pushed_entry w p) with (SmartStart.smartSessionFile w p ≫= describe p).
    destruct (SmartStart.smartSessionFile w p) as [content |];
      cbn [mbind option_bind]; [| done].
    destruct (describe p content); [| done]. by rewrite <- app_assoc.
Qed.

Lemma listAvailableSessions_run (w : world) :
  list_sessions w =
    (w, Return (sort (omap (pushed_entry w) (elements (dom (projects w)))))).
Proof.
  unfold listAvailableSessions. mrun. by rewrite foldl_visit.
Qed.

Lemma omap_names (w : world) (projects : list string) :
  NoDup projects → NoDup (name value <$> omap (pushed_entry w) projects).
Proof.
  induction 1 as [| p ps Hp Hps IH]; cbn [omap list_omap]; [constructor |].
  destruct (pushed_entry w p) as [entry |] eqn:Hentry; [| done].
  cbn [fmap list_fmap]. constructor; [| done].
  rewrite (entry_of_name _ _ _ Hentry).
  rewrite list_elem_of_fmap. intros (e & -> & He).
  apply list_elem_of_omap in He as (p' & Hp' & He).
  apply entry_of_name in He. by subst.
Qed.

(** X15.  The list holds exactly the projects whose record exists and whose first
    line parses into a value both properties can be read of, each of them
    once: nothing of the rest of a record is looked at. *)
Theorem listed_iff_header_parses (w : world) :
  ∃ smartSessions,
    list_sessions w = (w, Return smartSessions) ∧
    NoDup (name value <$> smartSessions) ∧
    ∀ entry,
      entry ∈ smartSessions ↔
      ∃ dir content sessionData,
        projects w !! name value entry = Some dir ∧
        dir !! smartSessionName (name value entry) = Some content ∧
        split LF content !! 0 ≫= JSON_parse = Some sessionData ∧
        property sessionData "consolidated_sessions" = Some (sessions value entry) ∧
        property sessionData "generated_at" = Some (generated value entry).
Proof.
  eexists. split; [apply listAvailableSessions_run |]. split.
  - rewrite (sort_rearranges _). apply omap_names, NoDup_elements.
  - intros entry. rewrite (sort_rearranges _), list_elem_of_omap. split.
    + intros (project & Hproject & Hentry).
      destruct entry as [entry_name count generated_at].
      cbn [name sessions generated].
      unfold pushed_entry, SmartStart.smartSessionFile in Hentry.
      destruct (projects w !! project) as [dir |] eqn:Hdir; [| done].
      cbn [mbind option_bind] in Hentry.
      destruct (dir !! smartSessionName project) as [content |] eqn:Hfile; [| done].
      cbn [mbind option_bind] in Hentry. unfold SmartSessionList.describe in Hentry.
      destruct (split LF content !! 0 ≫= JSON_parse) as [data |] eqn:Hdata; [| done].
      cbn [mbind option_bind] in Hentry.
      destruct (property data "consolidated_sessions") as [n |] eqn:Hn; [| done].
      cbn [mbind option_bind] in Hentry.
      destruct (property data "generated_at") as [g |] eqn:Hg; [| done].
      cbn [mbind option_bind] in Hentry. injection Hentry as -> -> ->.
      by exists dir, content, data.
    + intros (dir & content & data & Hdir & Hfile & Hdata & Hn & Hg).
      exists (name value entry). split.
      * apply elem_of_elements, elem_of_dom. by rewrite Hdir.
      * unfold pushed_entry, SmartStart.smartSessionFile. rewrite Hdir.
        cbn [mbind option_bind]. rewrite Hfile. cbn [mbind option_bind].
        unfold SmartSessionList.describe. rewrite Hdata. cbn [mbind option_bind].
        rewrite Hn. cbn [mbind option_bind]. rewrite Hg. cbn [mbind option_bind].
        by destruct entry.
Qed.

(** X16.  After a consolidation that found session files, the project is listed
    with what [JSON.parse] makes of the header the run serialised. *)
Theorem consolidated_project_is_listed (projectName : string) (w : world)
    (dir : gmap string string) (found : list string) (sessionData : JSON)
    (count generated_at : value) :
  projects w !! projectName = Some dir →
  session_files dir found →
  found ≠ [] →
  JSON_parse (JSON_stringify (smartSession projectName found (clock w (ticks w)))) =
    Some sessionData →
  property sessionData "consolidated_sessions" = Some count →
  property sessionData "generated_at" = Some generated_at →
  let w' := (generateQuickSmartSession projectName w).1 in
  ∃ smartSessions,
    list_sessions w' = (w', Return smartSessions) ∧
    {| name := projectName; sessions := count; generated := generated_at |}
      ∈ smartSessions.
Proof.
  intros Hdir Hfound Hne Hdata Hcount Hgenerated w'.
  pose proof (sessionFiles_length dir found Hfound) as Hlength.
  assert (length found ≠ 0) as Hpos by (by destruct found).
  assert (SmartStart.smartSessionFile w' projectName =
            Some (smartSessionContent projectName found (clock w) (ticks w)))
    as Hfile.
  { unfold w'. rewrite (generateQuickSmartSession_run projectName w dir Hdir).
    cbv zeta. rewrite bool_decide_false by lia. cbn [fst].
    rewrite smartSessionFile_written. f_equal.
    by apply smartSessionContent_length. }
  eexists. split; [apply listAvailableSessions_run |].
  rewrite (sort_rearranges _), list_elem_of_omap.
  exists projectName. split.
  - apply elem_of_elements, elem_of_dom.
    unfold SmartStart.smartSessionFile in Hfile.
    destruct (projects w' !! projectName); [done | done].
  - unfold pushed_entry. rewrite Hfile. cbn [mbind option_bind].
    unfold SmartSessionList.describe. rewrite smartSessionContent_lines.
    cbn [lookup list_lookup mbind option_bind]. rewrite Hdata.
    cbn [mbind option_bind]. rewrite Hcount. cbn [mbind option_bind].
    by rewrite Hgenerated.
Qed.

End Listing.

(** A line reader that refuses the text [stale] and keeps every other line,
    the length of the line as the value of each property, and a stable sort
    by decreasing number of sessions. *)
Definition line_parse (line : string) : option string :=
  if bool_decide (line = "stale") then None else Some line.

Definition line_property (sessionData key : string) : option nat :=
  Some (String.length sessionData).

Definition by_sessions : list (listed nat) → list (listed nat) :=
  @merge_sort _ (λ a b, sessions nat b ≤ sessions nat a)
    (λ a b, decide (sessions nat b ≤ sessions nat a)).

Lemma listed_witness :
  ∃ smartSessions,
    listAvailableSessions string line_parse nat line_property by_sessions demo_world =
      (demo_world, Return smartSessions) ∧
    NoDup (name nat <$> smartSessions) ∧
    ∀ entry,
      entry ∈ smartSessions ↔
      ∃ dir content sessionData,
        projects demo_world !! name nat entry = Some dir ∧
        dir !! smartSessionName (name nat entry) = Some content ∧
        split LF content !! 0 ≫= line_parse = Some sessionData ∧
        line_property sessionData "consolidated_sessions" = Some (sessions nat entry) ∧
        line_property sessionData "generated_at" = Some (generated nat entry).
Proof.
  apply (listed_iff_header_parses line_parse line_property by_sessions).
  intros l. apply merge_sort_Permutation.
Defined.

Lemma consolidated_witness :
  let header := JSON_stringify (smartSession "demo" demo_sessions (clock demo_world 0)) in
  let w' := (generateQuickSmartSession "demo" demo_world).1 in
  ∃ smartSessions,
    listAvailableSessions string line_parse nat line_property by_sessions w' =
      (w', Return smartSessions) ∧
    {| name := "demo"; sessions := String.length header;
       generated := String.length header |} ∈ smartSessions.
Proof.
  intros header.
  apply (consolidated_project_is_listed line_parse line_property by_sessions
           (λ l, merge_sort_Permutation _ l) "demo" demo_world demo_dir demo_sessions
           header).
  - reflexivity.
  - exact demo_session_files.
  - discriminate.
  - vm_compute; reflexivity.
  - reflexivity.
  - reflexivity.
Defined.

End ListingFacts.

(** ** The restoration script: properties *)

Module ScriptFacts.
Import Js JsFacts SessionScript.

(** A project name that [path.join] keeps as one segment of the path. *)
Definition one_segment (projectName : string) : Prop :=
  has_char "/" projectName = false.

Lemma length_app (a b : string) :
  String.length (a +:+ b) = String.length a + String.length b.
Proof.
  induction a as [| x a IH]; [done |].
  change (S (String.length (a +:+ b)) = S (String.length a + String.length b)).
  by rewrite IH.
Qed.

Lemma app_inj_suffix (a b c : string) : a +:+ c = b +:+ c → a = b.
Proof.
  revert b. induction a as [| x a IH]; intros [| y b] H.
  - done.
  - apply (f_equal String.length) in H.
    rewrite !length_app in H. cbn [String.length] in H. lia.
  - apply (f_equal String.length) in H.
    rewrite !length_app in H. cbn [String.length] in H. lia.
  - cbn [String.append] in H. injection H as -> H. f_equal. by apply IH.
Qed.

Lemma scriptName_lower (a b : string) :
  scriptName a = scriptName b ↔ toLowerCase a = toLowerCase b.
Proof.
  unfold scriptName. split; [| by intros ->].
  intros H. apply (inj (String.app "restore-")) in H.
  by apply app_inj_suffix in H.
Qed.

(** X17.  Two projects whose names differ by letter case only share one script
    file, so the later script replaces the earlier one; with names that
    differ otherwise both scripts are kept, each executable. *)
Theorem scripts_are_shared_up_to_case (a b : string)
    (result_a result_b : environmentResult) (generated_a generated_b : string)
    (tmp : gmap string tmp_file) :
  one_segment a → one_segment b →
  let tmp' :=
    createSessionScript b result_b generated_b
      (createSessionScript a result_a generated_a tmp) in
  if bool_decide (toLowerCase a = toLowerCase b)
  then tmp' = createSessionScript b result_b generated_b tmp
  else
    tmp' !! scriptName a =
      Some {| content := scriptContent a result_a generated_a; mode := "755" |} ∧
    tmp' !! scriptName b =
      Some {| content := scriptContent b result_b generated_b; mode := "755" |}.
Proof.
  intros _ _ tmp'. unfold tmp', createSessionScript. case_bool_decide as Hcase.
  - apply scriptName_lower in Hcase. rewrite Hcase. apply insert_insert_eq.
  - rewrite <- scriptName_lower in Hcase. split.
    + rewrite lookup_insert_ne by done. apply lookup_insert_eq.
    + apply lookup_insert_eq.
Qed.

(** Two spellings of one name, in an empty [/tmp]. *)
Lemma shared_script_witness :
  let restored :=
    {| workingDirectory := JsString "/srv/demo"; environmentVariables := None |} in
  createSessionScript "demo" restored "2025-01-01T00:00:01.000Z"
    (createSessionScript "Demo" restored "2025-01-01T00:00:00.000Z" ∅) =
  createSessionScript "demo" restored "2025-01-01T00:00:01.000Z" ∅.
Proof.
  intros restored.
  apply (scripts_are_shared_up_to_case "Demo" "demo" restored restored
           "2025-01-01T00:00:00.000Z" "2025-01-01T00:00:01.000Z" ∅);
    reflexivity.
Defined.

End ScriptFacts.
